(** * Personal AI OS: the rule-learning and rule-selection engine

    A shallow embedding of [backend/app/core/algorithms.py],
    [backend/app/core/extraction.py] and [backend/app/jobs/decay_processor.py],
    with the properties the specification states about them; and of the
    prompt assembly of [backend/app/core/prompts.py] and
    [backend/app/services/prompt_builder.py] with the caches of
    [backend/app/db/redis.py].

    Conventions of the embedding.
    - A Python [float] is a real number ([R]): arithmetic is exact, there is
      no rounding, overflow or NaN.  Comparisons are the decidable
      comparisons of [R], as booleans; a value on a concrete input is
      obtained by rewriting, with [lra] for the arithmetic.  The statements
      are those that rounding does not undo; where the rounding of the
      code's binary64 arithmetic decides (the similarity of a vector with
      itself can come out above 1), [Binary64] evaluates the code in
      binary64.
    - A Python [int] is a [Z]; [//] is [Z.div] (both round towards minus
      infinity).
    - A naive UTC [datetime] is its number of microseconds since the epoch;
      a [timedelta] is a number of microseconds.  [datetime.utcnow()] is an
      explicit argument [now].
    - A [str] is a [string] of one-byte characters.
    - [None], an absent dict key and a failed call are explicit: [option]
      for the first two, [result] for code that can raise. *)

From Stdlib Require Import Reals Lra Lia ZArith List String Ascii Bool.
From Stdlib Require Import Permutation Sorted.
From Stdlib Require PrimFloat.
Import ListNotations.

(** ** Python primitives *)

Module Py.

(** The exceptions the modelled code can meet: [ValueError] from numpy on
    vectors of different shapes, and the failure of a call to an external
    service (any other [Exception]). *)
Inductive exn : Type :=
| ValueError
| ServiceError.

Inductive result (A : Type) : Type :=
| Ok (a : A)
| Raise (e : exn).

Arguments Ok {A} a.
Arguments Raise {A} e.

Definition bind {A B : Type} (m : result A) (k : A -> result B) : result B :=
  match m with
  | Ok a => k a
  | Raise e => Raise e
  end.

(** [try: m  except Exception: h] *)
Definition try_except {A : Type} (m : result A) (h : A) : A :=
  match m with
  | Ok a => a
  | Raise _ => h
  end.

Local Open Scope R_scope.

Definition Rltb (x y : R) : bool := if Rlt_dec x y then true else false.
Definition Rleb (x y : R) : bool := if Rle_dec x y then true else false.
Definition Reqb (x y : R) : bool := if Req_dec_T x y then true else false.

(** The builtin [min(a, b)]: the first argument unless the second is
    strictly smaller. *)
Definition min (a b : R) : R := if Rltb b a then b else a.

(** The builtin [max(a, b)]: the first argument unless the second is
    strictly greater. *)
Definition max (a b : R) : R := if Rltb a b then b else a.

Definition abs (x : R) : R := Rabs x.

(** Truthiness of a list: the empty list is falsy. *)
Definition truthy_list {A : Type} (l : list A) : bool :=
  match l with [] => false | _ :: _ => true end.

(** Truthiness of [d.get(k)] for a list-valued key: absent, [None] and
    [[]] are all falsy. *)
Definition truthy_opt_list {A : Type} (o : option (list A)) : bool :=
  match o with Some l => truthy_list l | None => false end.

(** The list behind a value just tested truthy: [d[k]] after
    [if d.get(k)], an [Optional] argument after [if arg]. *)
Definition truthy_value {A : Type} (o : option (list A)) : list A :=
  match o with Some l => l | None => [] end.

(** [d.get(k, default)], for a key that holds a value of its type when it
    is there. *)
Definition dict_get {A : Type} (o : option A) (default : A) : A :=
  match o with Some a => a | None => default end.

(** [l[:n]], with Python's meaning of a negative bound. *)
Definition slice_to {A : Type} (n : Z) (l : list A) : list A :=
  if (0 <=? n)%Z then firstn (Z.to_nat n) l
  else firstn (List.length l - Z.to_nat (- n)) l.

Definition datetime : Type := Z.
Definition timedelta : Type := Z.

Definition microseconds_per_day : Z := 86400000000.
Definition microseconds_per_hour : Z := 3600000000.

(** [timedelta.days]: whole days, rounded towards minus infinity. *)
Definition days (d : timedelta) : Z := (d / microseconds_per_day)%Z.

Definition timedelta_hours (h : Z) : timedelta := (h * microseconds_per_hour)%Z.

End Py.

Notation "x <- m ;; k" := (Py.bind m (fun x => k))
  (at level 61, m at next level, right associativity).

Import Py.

(** ** [app/config.py] *)

Record Settings : Type := mkSettings {
  confidence_threshold : R;
  decay_rate : R;
  archive_threshold : R;
  similarity_threshold : R
}.

Local Open Scope R_scope.

(** The defaults of the [Field]s of the rule engine. *)
Definition default_settings : Settings :=
  {| confidence_threshold := 0.3;
     decay_rate := 0.05;
     archive_threshold := 0.2;
     similarity_threshold := 0.85 |}.

(** ** [app/core/algorithms.py]: scoring primitives *)

Section Scoring.

Variable settings : Settings.

Definition calculate_confidence (now : datetime)
    (base_confidence : R) (times_reinforced : Z)
    (last_applied_at last_reinforced_at : option datetime) : R :=
  let reinforcement_bonus := Py.min (IZR times_reinforced * 0.1) 0.45 in
  let decay_penalty :=
    match last_applied_at with
    | Some t =>
        let days_since_use := Py.days (now - t)%Z in
        let weeks_unused := (days_since_use / 7)%Z in
        Py.min (IZR weeks_unused * decay_rate settings) 0.4
    | None => 0.0
    end in
  let confidence := base_confidence + reinforcement_bonus - decay_penalty in
  Py.max 0.1 (Py.min 0.95 confidence).


Definition should_archive_rule (confidence : R) : bool :=
  Rltb confidence (archive_threshold settings).

(** *** The specification's wording of [confidence]

    [base + min(times_reinforced * 0.1, 0.45) - decay_penalty], the penalty
    being [min(floor(days_since / 7) * decay_rate, 0.4)], or [0] without a
    last application; the result clamped to [[0.1, 0.95]].  The elapsed
    days are a real number here and [floor] is the integer part. *)

Definition spec_days_since (last_applied_at now : datetime) : R :=
  IZR (now - last_applied_at) / IZR microseconds_per_day.

Definition spec_decay_penalty (now : datetime)
    (last_applied_at : option datetime) : R :=
  match last_applied_at with
  | None => 0
  | Some t =>
      Rmin (IZR (Int_part (spec_days_since t now / 7)) * decay_rate settings)
           0.4
  end.

Definition spec_clamp (lo hi x : R) : R := Rmax lo (Rmin hi x).

Definition spec_confidence (now : datetime) (base : R) (times_reinforced : Z)
    (last_applied_at : option datetime) : R :=
  spec_clamp 0.1 0.95
    (base + Rmin (IZR times_reinforced * 0.1) 0.45
     - spec_decay_penalty now last_applied_at).

End Scoring.

(** ** Rules as the algorithms see them

    [algorithms.py] works on rule dicts ([Rule.to_dict()], enriched by the
    callers).  Every key is an [option], [None] for an absent key; for
    [embedding] and [last_applied_at], which are read without a default and
    tested for truth, [None] is also a key holding [None].  A key that is
    there holds a value of its type.  Timestamps are instants, whether the
    dict holds a [datetime] or its ISO string. *)

Module RuleDict.

Record t : Type := mk {
  id : option string;
  content : option string;
  original_correction : option string;
  category : option string;
  confidence : option R;
  times_applied : option Z;
  times_reinforced : option Z;
  status : option string;
  created_at : option datetime;
  updated_at : option datetime;
  last_applied_at : option datetime;
  last_reinforced_at : option datetime;
  embedding : option (list R)
}.

End RuleDict.

(** ** [app/core/algorithms.py]: similarity, ranking, merging, selection *)

(** [np.dot] of two one-dimensional arrays: the shapes must agree. *)
Fixpoint dot (v1 v2 : list R) : R :=
  match v1, v2 with
  | x :: v1', y :: v2' => x * y + dot v1' v2'
  | _, _ => 0
  end.

Definition np_dot (v1 v2 : list R) : result R :=
  if Nat.eqb (List.length v1) (List.length v2) then Ok (dot v1 v2)
  else Raise ValueError.

(** [np.linalg.norm] of a one-dimensional array: [sqrt(x.dot(x))]. *)
Definition np_linalg_norm (v : list R) : R := sqrt (dot v v).

Definition cosine_similarity (vec1 vec2 : list R) : result R :=
  dot_product <- np_dot vec1 vec2 ;;
  let norm1 := np_linalg_norm vec1 in
  let norm2 := np_linalg_norm vec2 in
  if Reqb norm1 0 || Reqb norm2 0 then Ok 0.0
  else Ok (dot_product / (norm1 * norm2)).

(** The builtin stable sort, [list.sort(key=lambda x: x[1], reverse=True)]:
    descending keys, equal keys in their original order.  The arrangement
    is unique, and insertion from the right computes it: an element goes
    after the elements of strictly greater key and before the others. *)
Fixpoint insert_desc {A : Type} (p : A * R) (l : list (A * R)) : list (A * R) :=
  match l with
  | [] => [p]
  | q :: l' =>
      if Rltb (snd p) (snd q) then q :: insert_desc p l' else p :: q :: l'
  end.

Fixpoint sort_desc {A : Type} (l : list (A * R)) : list (A * R) :=
  match l with
  | [] => []
  | p :: l' => insert_desc p (sort_desc l')
  end.

(** A [for] loop whose body can raise. *)
Fixpoint for_each {A S : Type} (body : S -> A -> result S) (l : list A) (s : S)
    : result S :=
  match l with
  | [] => Ok s
  | x :: l' => s' <- body s x ;; for_each body l' s'
  end.

Section Algorithms.

Variable settings : Settings.

(** [relevance] of the loop of [rank_rules]: the cosine similarity when both
    [context_embedding] and [rule.get("embedding")] are truthy, else [1.0]. *)
Definition relevance (context_embedding : option (list R)) (rule : RuleDict.t)
    : result R :=
  if truthy_opt_list context_embedding
     && truthy_opt_list (RuleDict.embedding rule)
  then cosine_similarity (truthy_value context_embedding)
                         (truthy_value (RuleDict.embedding rule))
  else Ok 1.0.

(** [recency_boost] of the loop of [rank_rules]. *)
Definition recency_boost (now : datetime) (rule : RuleDict.t) : R :=
  match RuleDict.last_applied_at rule with
  | Some last_applied =>
      if (now - last_applied <? timedelta_hours 24)%Z then 1.2 else 1.0
  | None => 1.0
  end.

Definition rank_body (now : datetime) (context_embedding : option (list R))
    (scored_rules : list (RuleDict.t * R)) (rule : RuleDict.t)
    : result (list (RuleDict.t * R)) :=
  let confidence := dict_get (RuleDict.confidence rule) 0.5 in
  relevance <- relevance context_embedding rule ;;
  let recency_boost := recency_boost now rule in
  let score := confidence * relevance * recency_boost in
  if Rleb (confidence_threshold settings) confidence
  then Ok (scored_rules ++ [(rule, score)])
  else Ok scored_rules.

Definition rank_rules (now : datetime) (rules : list RuleDict.t)
    (context_embedding : option (list R)) (max_rules : Z)
    : result (list (RuleDict.t * R)) :=
  scored_rules <- for_each (rank_body now context_embedding) rules [] ;;
  Ok (slice_to max_rules (sort_desc scored_rules)).

(** [threshold or settings.similarity_threshold]: [None] and [0.0] are
    falsy. *)
Definition threshold_or_default (threshold : option R) : R :=
  match threshold with
  | Some t => if Reqb t 0 then similarity_threshold settings else t
  | None => similarity_threshold settings
  end.

Fixpoint find_similar_loop (new_rule_embedding : list R) (threshold : R)
    (existing_rules : list RuleDict.t) : result (option RuleDict.t) :=
  match existing_rules with
  | [] => Ok None
  | rule :: rest =>
      if truthy_opt_list (RuleDict.embedding rule) then
        similarity <- cosine_similarity new_rule_embedding
                        (truthy_value (RuleDict.embedding rule)) ;;
        if Rleb threshold similarity then Ok (Some rule)
        else find_similar_loop new_rule_embedding threshold rest
      else find_similar_loop new_rule_embedding threshold rest
  end.

Definition find_similar_rule (new_rule_embedding : list R)
    (existing_rules : list RuleDict.t) (threshold : option R)
    : result (option RuleDict.t) :=
  let threshold := threshold_or_default threshold in
  find_similar_loop new_rule_embedding threshold existing_rules.

End Algorithms.

(** [{**existing_rule, "times_reinforced": ..., "last_reinforced_at": ...,
    "confidence": ...}] *)
Definition merge_rules (now : datetime) (existing_rule : RuleDict.t)
    (new_correction : string) : RuleDict.t :=
  {| RuleDict.id := RuleDict.id existing_rule;
     RuleDict.content := RuleDict.content existing_rule;
     RuleDict.original_correction := RuleDict.original_correction existing_rule;
     RuleDict.category := RuleDict.category existing_rule;
     RuleDict.confidence :=
       Some (Py.min 0.95 (dict_get (RuleDict.confidence existing_rule) 0.5 + 0.1));
     RuleDict.times_applied := RuleDict.times_applied existing_rule;
     RuleDict.times_reinforced :=
       Some (dict_get (RuleDict.times_reinforced existing_rule) 0 + 1)%Z;
     RuleDict.status := RuleDict.status existing_rule;
     RuleDict.created_at := RuleDict.created_at existing_rule;
     RuleDict.updated_at := RuleDict.updated_at existing_rule;
     RuleDict.last_applied_at := RuleDict.last_applied_at existing_rule;
     RuleDict.last_reinforced_at := Some now;
     RuleDict.embedding := RuleDict.embedding existing_rule |}.

(** [len(rule.get("content", '')) // 4] *)
Definition rule_tokens (rule : RuleDict.t) : Z :=
  (Z.of_nat (String.length (dict_get (RuleDict.content rule) EmptyString)) / 4)%Z.

(** The loop of [select_rules_for_prompt]; running out of the budget is the
    [break]. *)
Fixpoint select_loop (max_tokens : Z) (ranked : list (RuleDict.t * R))
    (selected : list RuleDict.t) (estimated_tokens : Z) : list RuleDict.t :=
  match ranked with
  | [] => selected
  | (rule, score) :: rest =>
      if (max_tokens <? estimated_tokens + rule_tokens rule)%Z then selected
      else select_loop max_tokens rest (selected ++ [rule])
                       (estimated_tokens + rule_tokens rule)
  end.

Definition select_rules_for_prompt (settings : Settings) (now : datetime)
    (rules : list RuleDict.t) (context_embedding : option (list R))
    (max_tokens : Z) : result (list RuleDict.t) :=
  ranked <- rank_rules settings now rules context_embedding 10 ;;
  Ok (select_loop max_tokens ranked [] 0).

(** The estimated token cost of a list of rules. *)
Definition total_tokens (rules : list RuleDict.t) : Z :=
  fold_right (fun rule acc => (rule_tokens rule + acc)%Z) 0%Z rules.

(** ** [app/core/extraction.py]: the correction pipeline *)

Local Open Scope string_scope.

(** [str.lower()] on one-byte characters. *)
Definition lower_ascii (c : ascii) : ascii :=
  let n := nat_of_ascii c in
  if (65 <=? n)%nat && (n <=? 90)%nat then ascii_of_nat (n + 32) else c.

Fixpoint lower (s : string) : string :=
  match s with
  | EmptyString => EmptyString
  | String c s' => String (lower_ascii c) (lower s')
  end.

(** [kw in s] for strings: [kw] occurs in [s] as a substring. *)
Fixpoint contains (kw s : string) : bool :=
  prefix kw s
  || match s with
     | EmptyString => false
     | String _ s' => contains kw s'
     end.

(** The object decoded from the reply of the extraction service.  Its
    keys are read with [.get], so each may be absent; a key that is there
    holds a value of its type.  A reply that is JSON but not an object has
    no [.get]. *)
Record json_object : Type := mkJson {
  j_is_correction : option bool;
  j_correction_type : option string;
  j_confidence : option R;
  j_is_valid : option bool;
  j_rule : option string;
  j_category : option string;
  j_reasoning : option string
}.

Inductive json : Type :=
| JObject (o : json_object)
| JOther.

(** [result.get]: an [AttributeError] on a value that is not a dict, which
    the callers' [except Exception] handles like a failed call. *)
Definition as_object (j : json) : result json_object :=
  match j with
  | JObject o => Ok o
  | JOther => Raise ServiceError
  end.

(** The rule data of [extract_rule], to which [process_correction] adds
    the [embedding] key ([None] when the embedding could not be made). *)
Record rule_data : Type := mkRuleData {
  rd_content : string;
  rd_category : string;
  rd_reasoning : string;
  rd_original_correction : string;
  rd_created_at : datetime;
  rd_embedding : option (list R)
}.

(** The dict [process_correction] returns, by its [status]. *)
Inductive correction_result : Type :=
| extraction_failed (message : string)
| duplicate_found (existing_rule : RuleDict.t) (message : string)
| rule_created (rule : rule_data) (message : string).

Definition correction_keywords : list string :=
  [ "don't"; "dont"; "stop"; "never"; "always";
    "instead"; "rather"; "prefer"; "please use";
    "not like"; "wrong"; "fix"; "change" ].

Section Extraction.

Variable settings : Settings.

(** The external services.  [extract_json_response prompt] is the outcome
    of awaiting the extraction service on [prompt]; [generate_embedding n
    text] is the outcome of the [n]-th call of the embedding service within
    one run of the pipeline (two calls on the same text need not agree). *)
Variable extract_json_response : string -> result json.
Variable generate_embedding : nat -> string -> result (list R).

(** The prompt templates of [app/core/prompts.py], as their [.format]. *)
Variable CORRECTION_DETECTION_PROMPT : string -> string -> string.
Variable RULE_EXTRACTION_PROMPT : string -> string -> string.

Definition keyword_fallback (user_message : string) : bool * string * R :=
  let is_correction :=
    existsb (fun kw => contains kw (lower user_message)) correction_keywords in
  (is_correction,
   if is_correction then "style" else "none",
   if is_correction then 0.5%R else 0.0%R).

Definition detect_correction (user_message previous_response : string)
    : bool * string * R :=
  let prompt :=
    CORRECTION_DETECTION_PROMPT (substring 0 1000 previous_response)
                                user_message in
  try_except
    (reply <- extract_json_response prompt ;;
     result <- as_object reply ;;
     Ok (dict_get (j_is_correction result) false,
         dict_get (j_correction_type result) "none",
         dict_get (j_confidence result) 0.0%R))
    (keyword_fallback user_message).

Definition extract_rule (now : datetime)
    (user_correction previous_response : string) : option rule_data :=
  let prompt :=
    RULE_EXTRACTION_PROMPT (substring 0 1000 previous_response)
                           user_correction in
  try_except
    (reply <- extract_json_response prompt ;;
     result <- as_object reply ;;
     if negb (dict_get (j_is_valid result) true) then Ok None
     else
       match j_rule result with
       | None => Ok None
       | Some EmptyString => Ok None
       | Some rule_content =>
           Ok (Some {| rd_content := rule_content;
                       rd_category := dict_get (j_category result) "style";
                       rd_reasoning := dict_get (j_reasoning result) EmptyString;
                       rd_original_correction := user_correction;
                       rd_created_at := now;
                       rd_embedding := None |})
       end)
    None.

Definition check_duplicate_rule (call : nat) (new_rule_content : string)
    (existing_rules : list RuleDict.t) : option RuleDict.t :=
  try_except
    (new_embedding <- generate_embedding call new_rule_content ;;
     find_similar_rule settings new_embedding existing_rules None)
    None.

Definition with_embedding (rule : rule_data) (e : option (list R)) : rule_data :=
  {| rd_content := rd_content rule;
     rd_category := rd_category rule;
     rd_reasoning := rd_reasoning rule;
     rd_original_correction := rd_original_correction rule;
     rd_created_at := rd_created_at rule;
     rd_embedding := e |}.

(** A rule [find_similar_rule] returns carries an embedding, so the dict is
    not empty and [if duplicate:] is the test for [None].  The message of
    [rule_created] is kept without its leading check mark. *)
Definition process_correction (now : datetime)
    (user_correction previous_response : string)
    (existing_rules : list RuleDict.t) : correction_result :=
  match extract_rule now user_correction previous_response with
  | None =>
      extraction_failed "Could not extract a clear rule from this correction"
  | Some rule_data =>
      match check_duplicate_rule 0 (rd_content rule_data) existing_rules with
      | Some duplicate =>
          duplicate_found duplicate
            "This preference already exists and has been reinforced"
      | None =>
          let rule_data :=
            try_except
              (embedding <- generate_embedding 1 (rd_content rule_data) ;;
               Ok (with_embedding rule_data (Some embedding)))
              (with_embedding rule_data None) in
          rule_created rule_data
            ("Learned preference: " ++ rd_content rule_data)
      end
  end.

End Extraction.

Local Close Scope string_scope.

(** ** [app/models/rule.py] and [app/jobs/decay_processor.py] *)

Inductive RuleStatus : Type := ACTIVE | ARCHIVED | DISABLED.

Definition RuleStatus_eqb (a b : RuleStatus) : bool :=
  match a, b with
  | ACTIVE, ACTIVE | ARCHIVED, ARCHIVED | DISABLED, DISABLED => true
  | _, _ => false
  end.

(** A row of the [rules] table, with the columns the sweep reads or
    writes.  Identifiers are numbers. *)
Module Rule.

Record t : Type := mk {
  id : Z;
  user_id : Z;
  confidence : R;
  times_reinforced : Z;
  status : RuleStatus;
  updated_at : datetime;
  last_applied_at : option datetime
}.

Definition set_confidence (rule : t) (c : R) (now : datetime) : t :=
  {| id := id rule; user_id := user_id rule; confidence := c;
     times_reinforced := times_reinforced rule; status := status rule;
     updated_at := now; last_applied_at := last_applied_at rule |}.

Definition set_status (rule : t) (st : RuleStatus) : t :=
  {| id := id rule; user_id := user_id rule; confidence := confidence rule;
     times_reinforced := times_reinforced rule; status := st;
     updated_at := updated_at rule; last_applied_at := last_applied_at rule |}.

End Rule.

(** The audit events of [_log_decay_event] and [_log_archive_event]. *)
Inductive AuditLog : Type :=
| RULE_DECAYED (user_id rule_id : Z) (old_confidence new_confidence : R)
| RULE_ARCHIVED (user_id rule_id : Z).

(** The locals of [process_decay], and the audit rows added to the
    session. *)
Record sweep : Type := mkSweep {
  processed : Z;
  archived : Z;
  users_affected : list Z;
  audit : list AuditLog
}.

Definition sweep_start : sweep :=
  {| processed := 0; archived := 0; users_affected := []; audit := [] |}.

(** [set.add]; the set is kept in order of insertion, the order in which
    the final loop deletes cache keys being of no consequence. *)
Definition set_add (u : Z) (s : list Z) : list Z :=
  if existsb (Z.eqb u) s then s else s ++ [u].

(** [RuleCache]: the users whose key [rules:<user_id>] holds a snapshot.
    [invalidate_user_rules] deletes the key. *)
Definition cache : Type := list Z.

Definition cached (c : cache) (user_id : Z) : bool := existsb (Z.eqb user_id) c.

Definition invalidate_user_rules (c : cache) (user_id : Z) : cache :=
  filter (fun u => negb (Z.eqb u user_id)) c.

Section DecayProcessor.

Variable settings : Settings.

(** The body of [for rule in rules], on one active rule. *)
Definition decay_body (now : datetime) (acc : sweep) (rule : Rule.t)
    : Rule.t * sweep :=
  let old_confidence := Rule.confidence rule in
  let new_confidence :=
    calculate_confidence settings now 0.5 (Rule.times_reinforced rule)
      (Rule.last_applied_at rule) None in
  let '(rule, acc) :=
    if Rltb 0.01 (Py.abs (new_confidence - old_confidence)) then
      (Rule.set_confidence rule new_confidence now,
       {| processed := processed acc + 1;
          archived := archived acc;
          users_affected := set_add (Rule.user_id rule) (users_affected acc);
          audit := audit acc ++ [RULE_DECAYED (Rule.user_id rule) (Rule.id rule)
                                   old_confidence new_confidence] |})
    else (rule, acc) in
  if should_archive_rule settings new_confidence then
    (Rule.set_status rule ARCHIVED,
     {| processed := processed acc;
        archived := archived acc + 1;
        users_affected := users_affected acc;
        audit := audit acc ++ [RULE_ARCHIVED (Rule.user_id rule) (Rule.id rule)] |})
  else (rule, acc).

(** The loop over [select(Rule).where(Rule.status == ACTIVE)]: the rows
    of the table in order, the other rows untouched. *)
Fixpoint decay_loop (now : datetime) (table : list Rule.t) (acc : sweep)
    : list Rule.t * sweep :=
  match table with
  | [] => ([], acc)
  | rule :: rest =>
      if RuleStatus_eqb (Rule.status rule) ACTIVE then
        let '(rule', acc') := decay_body now acc rule in
        let '(rest', acc'') := decay_loop now rest acc' in
        (rule' :: rest', acc'')
      else
        let '(rest', acc') := decay_loop now rest acc in
        (rule :: rest', acc')
  end.

(** What a completed run leaves: the committed table and audit log, the
    cache, and the two counts it prints.  The calls to the database and to
    the cache are taken to succeed; nothing else in the job can raise. *)
Record sweep_outcome : Type := mkOutcome {
  out_table : list Rule.t;
  out_audit : list AuditLog;
  out_cache : cache;
  out_processed : Z;
  out_archived : Z
}.

Definition process_decay (now : datetime) (table : list Rule.t)
    (audit_log : list AuditLog) (c : cache) : sweep_outcome :=
  let '(table', acc) := decay_loop now table sweep_start in
  (* await db.commit() *)
  let c' := fold_left invalidate_user_rules (users_affected acc) c in
  {| out_table := table';
     out_audit := audit_log ++ audit acc;
     out_cache := c';
     out_processed := processed acc;
     out_archived := archived acc |}.

End DecayProcessor.

(** ** Vocabulary of the statements *)

(** The value [cosine_similarity] returns on two vectors of one length. *)
Definition cosine (v1 v2 : list R) : R :=
  if Reqb (np_linalg_norm v1) 0 || Reqb (np_linalg_norm v2) 0 then 0
  else dot v1 v2 / (np_linalg_norm v1 * np_linalg_norm v2).

(** A rule carries an embedding when [rule.get("embedding")] is truthy. *)
Definition embedded (rule : RuleDict.t) : bool :=
  truthy_opt_list (RuleDict.embedding rule).

Definition embedding_of (rule : RuleDict.t) : list R :=
  truthy_value (RuleDict.embedding rule).

(** The threshold [find_similar_rule] compares with: the one passed when
    it is not zero, the configured [similarity_threshold] when none is
    passed or the one passed is 0.0. *)
Definition threshold_in_force (s : Settings) (threshold : option R) (t : R)
    : Prop :=
  (threshold = Some t /\ t <> 0)
  \/ ((threshold = None \/ threshold = Some 0) /\ t = similarity_threshold s).

(** The data model fixes the dimension of the embeddings: every rule that
    carries one has a vector of the length of [v]. *)
Definition same_dimension (v : list R) (rules : list RuleDict.t) : Prop :=
  Forall (fun rule =>
            embedded rule = true ->
            List.length (embedding_of rule) = List.length v) rules.

(** The value of [relevance] when the dimensions agree. *)
Definition relevance_value (context_embedding : option (list R))
    (rule : RuleDict.t) : R :=
  if truthy_opt_list context_embedding && embedded rule
  then cosine (truthy_value context_embedding) (embedding_of rule)
  else 1.

(** [score = confidence * relevance * recency_boost] *)
Definition score (now : datetime) (context_embedding : option (list R))
    (rule : RuleDict.t) : R :=
  dict_get (RuleDict.confidence rule) 0.5
  * relevance_value context_embedding rule
  * recency_boost now rule.

(** [confidence >= settings.confidence_threshold] *)
Definition eligible (s : Settings) (rule : RuleDict.t) : bool :=
  Rleb (confidence_threshold s) (dict_get (RuleDict.confidence rule) 0.5).

(** The rules' embeddings have the dimension of the context embedding, when
    there is one. *)
Definition context_dimension (context_embedding : option (list R))
    (rules : list RuleDict.t) : Prop :=
  match context_embedding with
  | Some (c :: v) => same_dimension (c :: v) rules
  | _ => True
  end.

(** The pair [(rule, score)] as the loop of [rank_rules] builds it:
    [score = confidence * relevance * recency_boost], the relevance being
    what [cosine_similarity] returns when both embeddings are truthy and
    [1.0] otherwise. *)
Definition scored_as (now : datetime) (context_embedding : option (list R))
    (p : RuleDict.t * R) : Prop :=
  let rule := fst p in
  exists relevance,
    snd p = dict_get (RuleDict.confidence rule) 0.5 * relevance
            * recency_boost now rule
    /\ if truthy_opt_list context_embedding
          && truthy_opt_list (RuleDict.embedding rule)
       then cosine_similarity (truthy_value context_embedding)
                              (truthy_value (RuleDict.embedding rule))
            = Ok relevance
       else relevance = 1.0.

(** Descending scores. *)
Definition score_ge (p q : RuleDict.t * R) : Prop := snd q <= snd p.

(** The pairs of score [x], in their order in [l]. *)
Definition with_score (x : R) (l : list (RuleDict.t * R))
    : list (RuleDict.t * R) :=
  filter (fun p => Reqb (snd p) x) l.

(** ** Example data *)

(** A rule dict with only the given keys. *)
Definition rule_with (content : option string) (confidence : option R)
    (times_reinforced : option Z) (last_applied_at : option datetime)
    (embedding : option (list R)) : RuleDict.t :=
  {| RuleDict.id := None;
     RuleDict.content := content;
     RuleDict.original_correction := None;
     RuleDict.category := None;
     RuleDict.confidence := confidence;
     RuleDict.times_applied := None;
     RuleDict.times_reinforced := times_reinforced;
     RuleDict.status := None;
     RuleDict.created_at := None;
     RuleDict.updated_at := None;
     RuleDict.last_applied_at := last_applied_at;
     RuleDict.last_reinforced_at := None;
     RuleDict.embedding := embedding |}.

(** A rule whose embedding [[3, 4]] has similarity 0.6 with [[1, 0]]. *)
Definition rule_3_4 : RuleDict.t :=
  rule_with None (Some 0.5) (Some 0%Z) None (Some [3; 4]).

(** A rule of 27 characters, 6 estimated tokens. *)
Definition rule_bullets : RuleDict.t :=
  rule_with (Some "Use bullet points for lists"%string) (Some 0.5) (Some 0%Z)
    None None.

(** Three rules without embeddings, of confidence 0.5, 0.9 and 0.5, and a
    fourth below the default threshold 0.3. *)
Definition rule_a : RuleDict.t :=
  rule_with (Some "a"%string) (Some 0.5) None None None.
Definition rule_b : RuleDict.t :=
  rule_with (Some "b"%string) (Some 0.9) None None None.
Definition rule_c : RuleDict.t :=
  rule_with (Some "c"%string) (Some 0.5) None None None.
Definition rule_d : RuleDict.t :=
  rule_with (Some "d"%string) (Some 0.2) None None None.

(** An active rule of user 7, never reinforced, last applied at the epoch,
    whose stored confidence is already the floor 0.1 (a rule put back to
    [active] by hand after it was archived). *)
Definition stale_rule : Rule.t :=
  {| Rule.id := 1%Z;
     Rule.user_id := 7%Z;
     Rule.confidence := 0.1;
     Rule.times_reinforced := 0%Z;
     Rule.status := ACTIVE;
     Rule.updated_at := 0%Z;
     Rule.last_applied_at := Some 0%Z |}.

(** Seventy days after the epoch. *)
Definition seventy_days : datetime := (70 * microseconds_per_day)%Z.

(** ** Further definitions *)

(** Successive calls of [merge_rules] on one rule, each with its clock
    reading and its correction. *)
Definition merge_all (existing_rule : RuleDict.t)
    (corrections : list (datetime * string)) : RuleDict.t :=
  fold_left (fun rule c => merge_rules (fst c) rule (snd c))
            corrections existing_rule.

(** The reply to the evaluation prompt, with the keys
    [check_rule_relevance] reads from it. *)
Record relevance_object : Type := mkRelevance {
  r_is_relevant : option bool;
  r_confidence : option R
}.

Inductive relevance_json : Type :=
| RObject (o : relevance_object)
| ROther.

Definition as_relevance_object (j : relevance_json) : result relevance_object :=
  match j with
  | RObject o => Ok o
  | ROther => Raise ServiceError
  end.

(** [check_rule_relevance], the extraction service and the evaluation
    prompt's [.format] being arguments. *)
Definition check_rule_relevance
    (extract_json_response : string -> result relevance_json)
    (RULE_EVALUATION_PROMPT : string -> string -> string -> string)
    (rule_content rule_category user_message : string) : bool * R :=
  let prompt :=
    RULE_EVALUATION_PROMPT rule_content rule_category
                           (substring 0 500 user_message) in
  try_except
    (reply <- extract_json_response prompt ;;
     result <- as_relevance_object reply ;;
     Ok (dict_get (r_is_relevant result) false,
         dict_get (r_confidence result) 0.0))
    (true, 0.5).

(** Services for the examples: an extraction service that always answers
    with one formatting rule, embedding services that always fail or always
    return [[3, 4]], a service that is down, and a template that joins its
    arguments. *)
Definition reply_bullets : json_object :=
  {| j_is_correction := Some true;
     j_correction_type := Some "formatting"%string;
     j_confidence := None;
     j_is_valid := Some true;
     j_rule := Some "Avoid bullet points"%string;
     j_category := Some "formatting"%string;
     j_reasoning := None |}.

Definition llm_bullets : string -> result json :=
  fun _ => Ok (JObject reply_bullets).

Definition llm_down : string -> result json := fun _ => Raise ServiceError.

Definition embed_down : nat -> string -> result (list R) :=
  fun _ _ => Raise ServiceError.

Definition embed_3_4 : nat -> string -> result (list R) :=
  fun _ _ => Ok [3; 4].

Definition join_template : string -> string -> string :=
  fun a b => (a ++ b)%string.

(** A text of 1000 characters. *)
Definition thousand_chars : string :=
  string_of_list_ascii (repeat "a"%char 1000).

(** Vocabulary for the sweep: the confidence [process_decay] recomputes
    for a row, whether it differs from the stored one by more than 0.01,
    whether the row is active, and what the loop body makes of an active
    row. *)
Definition recomputed (s : Settings) (now : datetime) (rule : Rule.t) : R :=
  calculate_confidence s now 0.5 (Rule.times_reinforced rule)
    (Rule.last_applied_at rule) None.

Definition decays (s : Settings) (now : datetime) (rule : Rule.t) : bool :=
  Rltb 0.01 (Py.abs (recomputed s now rule - Rule.confidence rule)).

Definition is_active (rule : Rule.t) : bool :=
  RuleStatus_eqb (Rule.status rule) ACTIVE.

Definition count_active (table : list Rule.t) : Z :=
  Z.of_nat (List.length (filter is_active table)).

Definition sweep_row (s : Settings) (now : datetime) (rule : Rule.t) : Rule.t :=
  let rule1 :=
    if decays s now rule
    then Rule.set_confidence rule (recomputed s now rule) now
    else rule in
  if should_archive_rule s (recomputed s now rule)
  then Rule.set_status rule1 ARCHIVED
  else rule1.

Definition is_decay_event (e : AuditLog) : bool :=
  match e with RULE_DECAYED _ _ _ _ => true | RULE_ARCHIVED _ _ => false end.

Definition is_archive_event (e : AuditLog) : bool :=
  match e with RULE_DECAYED _ _ _ _ => false | RULE_ARCHIVED _ _ => true end.

(** The number of rows of a table that satisfy a test. *)
Definition count_where (f : Rule.t -> bool) (table : list Rule.t) : Z :=
  Z.of_nat (List.length (filter f table)).

(** The active rows whose confidence the sweep changes, and those it
    archives. *)
Definition will_decay (s : Settings) (now : datetime) (rule : Rule.t) : bool :=
  is_active rule && decays s now rule.

Definition will_archive (s : Settings) (now : datetime) (rule : Rule.t) : bool :=
  is_active rule && should_archive_rule s (recomputed s now rule).

(** Settings with the archive threshold at the confidence floor. *)
Definition floor_settings : Settings :=
  {| confidence_threshold := 0.3;
     decay_rate := 0.05;
     archive_threshold := 0.1;
     similarity_threshold := 0.85 |}.

(** ** Prompt assembly ([core/prompts.py], [services/prompt_builder.py])
    and the conversation cache ([db/redis.py]) *)

(** The errors this code raises on a malformed dict: [AttributeError]
    from [None.upper()], [KeyError] from [messages[0]["role"]]. *)
Inductive lookup_error : Type :=
| AttributeError
| KeyError.

Inductive attempt (A : Type) : Type :=
| Returns (a : A)
| Raises (e : lookup_error).

Arguments Returns {A} a.
Arguments Raises {A} e.

Definition attempt_bind {A B : Type} (m : attempt A) (k : A -> attempt B)
  : attempt B :=
  match m with
  | Returns a => k a
  | Raises e => Raises e
  end.

Notation "x <~ m ;; k" := (attempt_bind m (fun x => k))
  (at level 61, m at next level, right associativity).

Local Open Scope string_scope.

(** [str.upper()] on one-byte characters. *)
Definition upper_ascii (c : ascii) : ascii :=
  let n := nat_of_ascii c in
  if ((97 <=? n) && (n <=? 122))%nat then ascii_of_nat (n - 32) else c.

Fixpoint upper (s : string) : string :=
  match s with
  | EmptyString => EmptyString
  | String c s' => String (upper_ascii c) (upper s')
  end.

(** [sep.join(l)]. *)
Fixpoint join (sep : string) (l : list string) : string :=
  match l with
  | [] => EmptyString
  | [x] => x
  | x :: l' => x ++ sep ++ join sep l'
  end.

Definition newline : string := String (ascii_of_nat 10) EmptyString.

(** The bullet of the rules section, one character. *)
Definition bullet : string := String (ascii_of_nat 149) EmptyString.

(** [l[-n:]] for [n >= 1]. *)
Definition slice_last {A : Type} (n : nat) (l : list A) : list A :=
  skipn (List.length l - n) l.

Definition option_string_eqb (a b : option string) : bool :=
  match a, b with
  | Some x, Some y => String.eqb x y
  | None, None => true
  | _, _ => false
  end.

(** The dict [categorized]: category (or [None]) to the contents filed under
    it, in insertion order. *)
Definition categorized_dict : Type :=
  list (option string * list (option string)).

Fixpoint categorized_get (d : categorized_dict) (category : option string)
  : option (list (option string)) :=
  match d with
  | [] => None
  | (k, items) :: d' =>
      if option_string_eqb k category then Some items
      else categorized_get d' category
  end.

(** [if category not in categorized: categorized[category] = []], then
    [categorized[category].append(content)]. *)
Fixpoint categorized_append (d : categorized_dict) (category : option string)
  (content : option string) : categorized_dict :=
  match d with
  | [] => [(category, [content])]
  | (k, items) :: d' =>
      if option_string_eqb k category then (k, (items ++ [content])%list) :: d'
      else (k, items) :: categorized_append d' category content
  end.

Definition categorize (rules : list RuleDict.t) : categorized_dict :=
  fold_left
    (fun d rule =>
       categorized_append d (RuleDict.category rule) (RuleDict.content rule))
    rules [].

Definition category_order : list string :=
  ["safety"; "logic"; "formatting"; "style"; "tone"].

Definition in_category_order (category : string) : bool :=
  existsb (String.eqb category) category_order.

(** What an f-string prints for a content. *)
Definition format_value (r : option string) : string :=
  match r with
  | Some c => c
  | None => "None"
  end.

Definition format_section (category : string) (items : list (option string))
  : string :=
  "[" ++ upper category ++ "]" ++ newline
  ++ join newline (map (fun r => bullet ++ " " ++ format_value r) items).

(** The loop over [category_order]. *)
Definition ordered_sections (categorized : categorized_dict) : list string :=
  flat_map
    (fun category =>
       match categorized_get categorized (Some category) with
       | Some items => [format_section category items]
       | None => []
       end)
    category_order.

(** The loop over [categorized.items()]: the key [None] is not in
    [category_order], and [None.upper()] raises. *)
Fixpoint remaining_sections (categorized : categorized_dict)
  : attempt (list string) :=
  match categorized with
  | [] => Returns []
  | (None, _) :: _ => Raises AttributeError
  | (Some category, items) :: d' =>
      if in_category_order category then remaining_sections d'
      else
        sections <~ remaining_sections d' ;;
        Returns (format_section category items :: sections)
  end.

Definition build_rules_section (rules : list RuleDict.t) : attempt string :=
  match rules with
  | [] => Returns "No specific preferences to apply."
  | _ :: _ =>
      let categorized := categorize rules in
      sections <~ remaining_sections categorized ;;
      Returns (join (newline ++ newline)
                 (ordered_sections categorized ++ sections)%list)
  end.

Definition SYSTEM_PROMPT_TEMPLATE (rules_section : string) : string :=
  "You are a helpful AI assistant. Follow these rules strictly:"
  ++ newline ++ newline ++ rules_section ++ newline ++ newline
  ++ "Instructions:" ++ newline
  ++ "- Apply all rules above without mentioning them unless explicitly asked"
  ++ newline
  ++ "- Maintain a natural, helpful tone" ++ newline
  ++ "- If a rule conflicts with the user's explicit request, prioritize the request"
  ++ newline
  ++ "- Be consistent in applying preferences across all responses".

Definition build_system_prompt (rules : list RuleDict.t) : attempt string :=
  rules_section <~ build_rules_section rules ;;
  Returns (SYSTEM_PROMPT_TEMPLATE rules_section).

Local Close Scope string_scope.

(** A chat message: a dict whose keys [role] and [content] may be absent. *)
Module Message.

Record t : Type := mk {
  role : option string;
  content : option string
}.

Definition make (r c : string) : t := mk (Some r) (Some c).

End Message.

(** [len(msg.get("content", "")) // 4]. *)
Definition message_tokens (msg : Message.t) : Z :=
  (Z.of_nat (String.length (Py.dict_get (Message.content msg) EmptyString)) / 4)%Z.

Definition total_chars (messages : list Message.t) : Z :=
  fold_right
    (fun m acc =>
       (Z.of_nat (String.length (Py.dict_get (Message.content m) EmptyString))
        + acc)%Z)
    0%Z messages.

Definition estimate_tokens (messages : list Message.t) : Z :=
  (total_chars messages / 4)%Z.

(** The loop of [truncate_for_context] over [reversed(other_messages)];
    [kept] is the part of [result] after the system prompt, where
    [result.insert] puts each message in front. *)
Fixpoint truncate_loop (max_tokens : Z) (reversed_messages : list Message.t)
  (kept : list Message.t) (current_tokens : Z) : list Message.t :=
  match reversed_messages with
  | [] => kept
  | msg :: rest =>
      let msg_tokens := message_tokens msg in
      if (max_tokens <? current_tokens + msg_tokens)%Z then kept
      else truncate_loop max_tokens rest (msg :: kept)
             (current_tokens + msg_tokens)
  end.

Definition truncate_for_context (messages : list Message.t) (max_tokens : Z)
  : attempt (list Message.t) :=
  match messages with
  | [] => Returns []
  | first :: others =>
      match Message.role first with
      | None => Raises KeyError
      | Some r =>
          if String.eqb r "system"%string then
            Returns (first :: truncate_loop max_tokens (rev others) []
                                (estimate_tokens [first]))
          else
            Returns (truncate_loop max_tokens (rev messages) []
                       (estimate_tokens []))
      end
  end.

(** The conversation cache: conversation id to the stored context.  The
    expiry of a key is not modelled. *)
Definition conversation_cache : Type := string -> option (list Message.t).

Definition get_context (store : conversation_cache) (conversation_id : string)
  : option (list Message.t) :=
  store conversation_id.

Definition set_context (store : conversation_cache) (conversation_id : string)
  (messages : list Message.t) : conversation_cache :=
  fun k => if String.eqb k conversation_id then Some messages else store k.

Definition append_message (store : conversation_cache)
  (conversation_id : string) (message : Message.t) : conversation_cache :=
  let context :=
    match get_context store conversation_id with
    | Some (m :: c) => m :: c
    | _ => []
    end in
  let context := context ++ [message] in
  let context := slice_last 20 context in
  set_context store conversation_id context.

Definition build_chat_prompt (store : conversation_cache)
  (user_message : string) (rules : list RuleDict.t)
  (conversation_id : option string) (include_history : bool)
  : attempt (list Message.t) :=
  system_prompt <~ build_system_prompt rules ;;
  let messages := [Message.make "system"%string system_prompt] in
  let messages :=
    match (if include_history then conversation_id else None) with
    | Some (String c id) =>
        match get_context store (String c id) with
        | Some (m :: h) => messages ++ slice_last 10 (m :: h)
        | _ => messages
        end
    | _ => messages
    end in
  Returns (messages ++ [Message.make "user"%string user_message]).

Definition update_conversation_context (store : conversation_cache)
  (conversation_id user_message assistant_response : string)
  : conversation_cache :=
  let store :=
    append_message store conversation_id (Message.make "user"%string user_message) in
  append_message store conversation_id
    (Message.make "assistant"%string assistant_response).

(** The messages [process_chat] sends to the model
    ([services/interaction.py], lines 56 to 64). *)
Definition chat_messages (store : conversation_cache) (message : string)
  (rules : list RuleDict.t) (conversation_id : option string)
  : attempt (list Message.t) :=
  messages <~ build_chat_prompt store message rules conversation_id true ;;
  truncate_for_context messages 4000.

(** Vocabulary for the rules section: the contents filed under a category,
    in input order; the categories in order of first appearance; the
    categories of the fixed precedence that occur, and the others. *)
Definition contents_of (category : option string) (rules : list RuleDict.t)
  : list (option string) :=
  map RuleDict.content
    (filter (fun r => option_string_eqb (RuleDict.category r) category) rules).

Fixpoint first_seen (l : list (option string)) : list (option string) :=
  match l with
  | [] => []
  | x :: l' =>
      x :: filter (fun y => negb (option_string_eqb y x)) (first_seen l')
  end.

Definition has_category (rules : list RuleDict.t) (category : string) : bool :=
  existsb (fun r => option_string_eqb (RuleDict.category r) (Some category))
    rules.

Definition lacks_category (rules : list RuleDict.t) : bool :=
  existsb (fun r => option_string_eqb (RuleDict.category r) None) rules.

Definition known_categories (rules : list RuleDict.t) : list string :=
  filter (has_category rules) category_order.

Definition other_category (k : option string) : list string :=
  match k with
  | Some c => if in_category_order c then [] else [c]
  | None => []
  end.

Definition other_categories (rules : list RuleDict.t) : list string :=
  flat_map other_category (first_seen (map RuleDict.category rules)).

Definition section_of (rules : list RuleDict.t) (category : string) : string :=
  format_section category (contents_of (Some category) rules).

(** Membership in a list of categories. *)
Definition seen (k : option string) (l : list (option string)) : bool :=
  existsb (option_string_eqb k) l.

(** Vocabulary for the chat prompt: the per-message token estimates summed;
    the stored context of a conversation, empty when there is none; the
    history [build_chat_prompt] reads for a conversation id. *)
Definition sum_tokens (messages : list Message.t) : Z :=
  fold_right (fun m acc => (message_tokens m + acc)%Z) 0%Z messages.

Definition stored_context (store : conversation_cache)
  (conversation_id : string) : list Message.t :=
  Py.dict_get (get_context store conversation_id) [].

Definition recent_history (store : conversation_cache)
  (conversation_id : option string) : list Message.t :=
  match conversation_id with
  | Some (String c id) => slice_last 10 (stored_context store (String c id))
  | _ => []
  end.

(** Example: four user messages of three characters, no system prompt. *)
Definition short_message : Message.t := Message.make "user" "abc".

(** Example: a user message of four characters, one estimated token. *)
Definition token_message : Message.t := Message.make "user" "abcd".

(** Example: a message without the key [role]. *)
Definition anonymous_message : Message.t :=
  Message.mk None (Some "abc"%string).

(** The system prompt [truncate_for_context] sets apart: the first message
    when its role is [system]. *)
Definition is_system (m : Message.t) : bool :=
  match Message.role m with
  | Some r => String.eqb r "system"
  | None => false
  end.

Definition system_part (messages : list Message.t) : list Message.t :=
  match messages with
  | first :: _ => if is_system first then [first] else []
  | [] => []
  end.

Definition has_role (m : Message.t) : Prop := Message.role m <> None.

(** ** [cosine_similarity] in binary64 *)

(** The arithmetic of [cosine_similarity] as numpy does it, on IEEE 754
    binary64 numbers.  [np.dot] sums the products in the order of its BLAS
    kernel, which is not modelled: the function is evaluated below only
    where every product and partial sum is exact, in any order. *)
Module Binary64.

Import PrimFloat.
Local Open Scope float_scope.

Fixpoint dot (v1 v2 : list float) : float :=
  match v1, v2 with
  | x :: v1', y :: v2' => x * y + dot v1' v2'
  | _, _ => 0
  end.

Definition np_dot (v1 v2 : list float) : result float :=
  if Nat.eqb (List.length v1) (List.length v2) then Ok (dot v1 v2)
  else Raise ValueError.

Definition np_linalg_norm (v : list float) : float := sqrt (dot v v).

Definition cosine_similarity (vec1 vec2 : list float) : result float :=
  dot_product <- np_dot vec1 vec2 ;;
  let norm1 := np_linalg_norm vec1 in
  let norm2 := np_linalg_norm vec2 in
  if ((norm1 =? 0) || (norm2 =? 0))%bool then Ok 0
  else Ok (dot_product / (norm1 * norm2)).


End Binary64.

(** ** Facts about the Python primitives *)

Lemma Rltb_true (x y : R) : Rltb x y = true <-> x < y.
Proof. unfold Rltb; destruct (Rlt_dec x y); split; intros; try easy. Qed.

Lemma Rltb_false (x y : R) : Rltb x y = false <-> y <= x.
Proof.
  unfold Rltb; destruct (Rlt_dec x y); split; intros; try easy; lra.
Qed.

Lemma Rleb_true (x y : R) : Rleb x y = true <-> x <= y.
Proof. unfold Rleb; destruct (Rle_dec x y); split; intros; try easy. Qed.

Lemma Rleb_false (x y : R) : Rleb x y = false <-> y < x.
Proof.
  unfold Rleb; destruct (Rle_dec x y); split; intros; try easy; lra.
Qed.

Lemma Reqb_true (x y : R) : Reqb x y = true <-> x = y.
Proof. unfold Reqb; destruct (Req_dec_T x y); split; intros; try easy. Qed.

Lemma Reqb_false (x y : R) : Reqb x y = false <-> x <> y.
Proof. unfold Reqb; destruct (Req_dec_T x y); split; intros; try easy. Qed.

(** Case analysis on every comparison in the goal, innermost first, leaving
    the order facts in the context. *)
Ltac no_cmp_in t :=
  lazymatch t with
  | context [Rltb _ _] => fail
  | context [Rleb _ _] => fail
  | context [Reqb _ _] => fail
  | _ => idtac
  end.

Ltac cmp_cases :=
  repeat match goal with
  | |- context [Rltb ?x ?y] =>
      no_cmp_in x; no_cmp_in y;
      let E := fresh "E" in
      destruct (Rltb x y) eqn:E;
      [apply Rltb_true in E | apply Rltb_false in E]
  | |- context [Rleb ?x ?y] =>
      no_cmp_in x; no_cmp_in y;
      let E := fresh "E" in
      destruct (Rleb x y) eqn:E;
      [apply Rleb_true in E | apply Rleb_false in E]
  | |- context [Reqb ?x ?y] =>
      no_cmp_in x; no_cmp_in y;
      let E := fresh "E" in
      destruct (Reqb x y) eqn:E;
      [apply Reqb_true in E | apply Reqb_false in E]
  end.

Lemma py_min_Rmin (a b : R) : Py.min a b = Rmin a b.
Proof.
  unfold Py.min, Rmin. cmp_cases; destruct (Rle_dec a b); lra.
Qed.

Lemma py_max_Rmax (a b : R) : Py.max a b = Rmax a b.
Proof.
  unfold Py.max, Rmax. cmp_cases; destruct (Rle_dec a b); lra.
Qed.

(** Floor division of integers is the integer part of the real quotient. *)
Lemma Int_part_div (a b : Z) :
  (0 < b)%Z -> Int_part (IZR a / IZR b) = (a / b)%Z.
Proof.
  intros Hb. symmetry. apply Int_part_spec.
  assert (Hb' : 0 < IZR b) by (apply IZR_lt; exact Hb).
  pose proof (Z.div_mod a b ltac:(lia)) as Hdm.
  pose proof (Z.mod_pos_bound a b Hb) as [Hlo Hhi].
  assert (Ha : IZR a = IZR b * IZR (a / b) + IZR (a mod b)).
  { rewrite <- mult_IZR, <- plus_IZR. f_equal. exact Hdm. }
  apply IZR_le in Hlo. apply IZR_lt in Hhi.
  rewrite Ha.
  replace ((IZR b * IZR (a / b) + IZR (a mod b)) / IZR b)
    with (IZR (a / b) + IZR (a mod b) / IZR b) by (field; lra).
  assert (0 <= IZR (a mod b) / IZR b < 1).
  { split.
    - apply Rmult_le_pos; [lra | left; apply Rinv_0_lt_compat; lra].
    - apply Rmult_lt_reg_r with (IZR b); [lra |].
      unfold Rdiv. rewrite Rmult_assoc, Rinv_l by lra. lra. }
  lra.
Qed.

Lemma spec_weeks_floor (t now : datetime) :
  Int_part (spec_days_since t now / 7) = (Py.days (now - t) / 7)%Z.
Proof.
  unfold spec_days_since, Py.days.
  rewrite Z.div_div by (unfold microseconds_per_day; lia).
  rewrite <- Int_part_div by (unfold microseconds_per_day; lia).
  f_equal. rewrite mult_IZR. unfold microseconds_per_day. field.
Qed.

(** ** Confidence *)

Lemma calculate_confidence_spec (s : Settings) (now : datetime) (base : R)
    (n : Z) (la lr : option datetime) :
  calculate_confidence s now base n la lr = spec_confidence s now base n la.
Proof.
  unfold calculate_confidence, spec_confidence, spec_clamp, spec_decay_penalty.
  rewrite !py_max_Rmax, !py_min_Rmin.
  destruct la as [t|].
  - rewrite py_min_Rmin, spec_weeks_floor. reflexivity.
  - f_equal. f_equal. lra.
Qed.

Lemma clamp_range (c : R) : 0.1 <= Py.max 0.1 (Py.min 0.95 c) <= 0.95.
Proof. unfold Py.max, Py.min. cmp_cases; lra. Qed.

Lemma calculate_confidence_range (s : Settings) (now : datetime) (base : R)
    (n : Z) (la lr : option datetime) :
  0.1 <= calculate_confidence s now base n la lr <= 0.95.
Proof. unfold calculate_confidence. apply clamp_range. Qed.

(** C1. For every base confidence, every reinforcement count (in
    particular every non-negative one) and any last-application and
    last-reinforcement timestamps, present or absent, [calculate_confidence]
    returns [base + min(times_reinforced * 0.1, 0.45) - decay_penalty]
    clamped to [[0.1, 0.95]], where the penalty is
    [min(floor(days_since(last_applied_at) / 7) * decay_rate, 0.4)] and is
    [0] when [last_applied_at] is absent; the result lies in [[0.1, 0.95]]. *)
Theorem C1_calculate_confidence (s : Settings) (now : datetime) (base : R)
    (times_reinforced : Z) (last_applied_at last_reinforced_at : option datetime) :
  (0 <= times_reinforced)%Z ->
  calculate_confidence s now base times_reinforced
      last_applied_at last_reinforced_at
    = spec_clamp 0.1 0.95
        (base + Rmin (IZR times_reinforced * 0.1) 0.45
         - spec_decay_penalty s now last_applied_at)
  /\ spec_decay_penalty s now None = 0
  /\ 0.1 <= calculate_confidence s now base times_reinforced
              last_applied_at last_reinforced_at <= 0.95.
Proof.
  intros _. split; [| split].
  - apply calculate_confidence_spec.
  - reflexivity.
  - apply calculate_confidence_range.
Qed.

Lemma C1_calculate_confidence_witness :
  (0 <= 2)%Z
  /\ 0.1 <= calculate_confidence default_settings
              (21 * microseconds_per_day)%Z 0.5 2 (Some 0%Z) None <= 0.95.
Proof.
  split; [lia |].
  apply (C1_calculate_confidence default_settings
           (21 * microseconds_per_day)%Z 0.5 2 (Some 0%Z) None).
  lia.
Defined.

(** The specification's scenario: confidence 0.5, never reinforced, last
    applied 21 days ago, decay rate 0.05: the penalty is 0.15 and the
    confidence 0.35. *)
Example calculate_confidence_scenario :
  calculate_confidence default_settings
    (21 * microseconds_per_day)%Z 0.5 0 (Some 0%Z) None = 0.35.
Proof.
  unfold calculate_confidence.
  replace (Py.days (21 * microseconds_per_day - 0) / 7)%Z with 3%Z
    by (vm_compute; reflexivity).
  simpl decay_rate. unfold Py.max, Py.min. cmp_cases; lra.
Qed.

(** ** Cosine similarity *)

Lemma dot_self_nonneg (v : list R) : 0 <= dot v v.
Proof. induction v as [|x v IH]; simpl; [lra | nra]. Qed.


Lemma dot_self_pos (v : list R) :
  (exists c, In c v /\ c <> 0) -> 0 < dot v v.
Proof.
  induction v as [|x v IH]; intros [c [Hin Hc]]; simpl in *; [easy |].
  pose proof (dot_self_nonneg v).
  destruct Hin as [-> | Hin].
  - assert (0 < c * c) by nra. lra.
  - assert (0 < dot v v) by (apply IH; exists c; auto). nra.
Qed.


Lemma cosine_similarity_same_length (v1 v2 : list R) :
  List.length v1 = List.length v2 ->
  cosine_similarity v1 v2 = Ok (cosine v1 v2).
Proof.
  intros Hlen. unfold cosine_similarity, np_dot, cosine.
  rewrite Hlen, Nat.eqb_refl. simpl.
  destruct (Reqb (np_linalg_norm v1) 0 || Reqb (np_linalg_norm v2) 0);
    [f_equal; lra | reflexivity].
Qed.

Lemma cosine_similarity_mismatch (v1 v2 : list R) :
  List.length v1 <> List.length v2 ->
  cosine_similarity v1 v2 = Raise ValueError.
Proof.
  intros Hlen. unfold cosine_similarity, np_dot.
  apply Nat.eqb_neq in Hlen. rewrite Hlen. reflexivity.
Qed.




Lemma cosine_self (v : list R) :
  (exists c, In c v /\ c <> 0) -> cosine v v = 1.
Proof.
  intros Hv. pose proof (dot_self_pos v Hv) as Hpos.
  assert (Hn : 0 < np_linalg_norm v) by (apply sqrt_lt_R0; exact Hpos).
  unfold cosine. cmp_cases; simpl; try lra.
  unfold np_linalg_norm. rewrite sqrt_sqrt by lra. field. lra.
Qed.




Lemma norm_1_0 : np_linalg_norm [1; 0] = 1.
Proof.
  unfold np_linalg_norm. simpl. apply sqrt_lem_1; lra.
Qed.

Lemma norm_3_4 : np_linalg_norm [3; 4] = 5.
Proof.
  unfold np_linalg_norm. simpl. apply sqrt_lem_1; lra.
Qed.

Lemma cosine_1_0_3_4 : cosine [1; 0] [3; 4] = 0.6.
Proof.
  unfold cosine. rewrite norm_1_0, norm_3_4.
  cmp_cases; simpl; lra.
Qed.

(** ** Duplicate detection *)

Lemma threshold_or_default_nonzero (s : Settings) (t : R) :
  t <> 0 -> threshold_or_default s (Some t) = t.
Proof.
  intros Ht. unfold threshold_or_default. cmp_cases; [contradiction | easy].
Qed.

Lemma threshold_or_default_zero (s : Settings) :
  threshold_or_default s (Some 0) = threshold_or_default s None.
Proof. unfold threshold_or_default. cmp_cases; [reflexivity | lra]. Qed.

Lemma find_similar_loop_none (emb : list R) (thr : R) (rules : list RuleDict.t) :
  (forall r, In r rules -> embedded r = true ->
             exists x, cosine_similarity emb (embedding_of r) = Ok x /\ x < thr) ->
  find_similar_loop emb thr rules = Ok None.
Proof.
  induction rules as [|rule rest IH]; intros Hlow; simpl; [reflexivity |].
  fold (embedded rule). destruct (embedded rule) eqn:He.
  - fold (embedding_of rule).
    destruct (Hlow rule (or_introl eq_refl) He) as [x [Hx Hlt]].
    rewrite Hx. simpl. apply Rleb_false in Hlt. rewrite Hlt.
    apply IH. intros; apply Hlow; [right |]; assumption.
  - apply IH. intros; apply Hlow; [right |]; assumption.
Qed.

Lemma find_similar_loop_first (emb : list R) (thr : R)
    (pre : list RuleDict.t) (r : RuleDict.t) (post : list RuleDict.t) (x : R) :
  embedded r = true ->
  cosine_similarity emb (embedding_of r) = Ok x ->
  thr <= x ->
  (forall q, In q pre -> embedded q = true ->
             exists y, cosine_similarity emb (embedding_of q) = Ok y /\ y < thr) ->
  find_similar_loop emb thr (pre ++ r :: post) = Ok (Some r).
Proof.
  induction pre as [|q pre IH]; intros He Hx Hge Hlow; simpl.
  - fold (embedded r). rewrite He. fold (embedding_of r). rewrite Hx. simpl.
    apply Rleb_true in Hge. rewrite Hge. reflexivity.
  - fold (embedded q). destruct (embedded q) eqn:Heq.
    + fold (embedding_of q).
      destruct (Hlow q (or_introl eq_refl) Heq) as [y [Hy Hlt]].
      rewrite Hy. simpl. apply Rleb_false in Hlt. rewrite Hlt.
      apply IH; auto. intros; apply Hlow; [right |]; assumption.
    + apply IH; auto. intros; apply Hlow; [right |]; assumption.
Qed.

Lemma find_similar_loop_some (emb : list R) (thr : R)
    (rules : list RuleDict.t) (r : RuleDict.t) :
  find_similar_loop emb thr rules = Ok (Some r) ->
  In r rules /\ embedded r = true
  /\ exists x, cosine_similarity emb (embedding_of r) = Ok x /\ thr <= x.
Proof.
  induction rules as [|rule rest IH]; simpl; [discriminate |].
  fold (embedded rule). destruct (embedded rule) eqn:He.
  - fold (embedding_of rule).
    destruct (cosine_similarity emb (embedding_of rule)) as [x | e] eqn:Hx;
      simpl; [| discriminate].
    destruct (Rleb thr x) eqn:Hge.
    + intros H. injection H as <-. apply Rleb_true in Hge.
      split; [left; reflexivity | split; [exact He |]].
      exists x. split; [exact Hx | exact Hge].
    + intros H. destruct (IH H) as [Hin Hrest]. split; [right |]; assumption.
  - intros H. destruct (IH H) as [Hin Hrest]. split; [right |]; assumption.
Qed.

Lemma cosine_similarity_1_0_3_4 :
  cosine_similarity [1; 0] (embedding_of rule_3_4) = Ok 0.6.
Proof.
  change (embedding_of rule_3_4) with [3; 4].
  rewrite cosine_similarity_same_length by reflexivity.
  rewrite cosine_1_0_3_4. reflexivity.
Qed.

Lemma find_similar_zero_threshold_example :
  find_similar_rule default_settings [1; 0] [rule_3_4] (Some 0) = Ok None.
Proof.
  unfold find_similar_rule. rewrite threshold_or_default_zero.
  apply find_similar_loop_none.
  intros r [<- | []] _. exists 0.6.
  split; [apply cosine_similarity_1_0_3_4 | simpl; lra].
Qed.

Lemma find_similar_loop_raise (emb : list R) (thr : R)
    (pre post : list RuleDict.t) (r : RuleDict.t) :
  embedded r = true ->
  List.length emb <> List.length (embedding_of r) ->
  (forall q, In q pre -> embedded q = true ->
             exists y, cosine_similarity emb (embedding_of q) = Ok y /\ y < thr) ->
  find_similar_loop emb thr (pre ++ r :: post) = Raise ValueError.
Proof.
  induction pre as [|q pre IH]; intros He Hlen Hlow; simpl.
  - fold (embedded r). rewrite He. fold (embedding_of r).
    rewrite (cosine_similarity_mismatch _ _ Hlen). reflexivity.
  - fold (embedded q). destruct (embedded q) eqn:Heq.
    + fold (embedding_of q).
      destruct (Hlow q (or_introl eq_refl) Heq) as [y [Hy Hlt]].
      rewrite Hy. simpl. apply Rleb_false in Hlt. rewrite Hlt.
      apply IH; auto. intros; apply Hlow; [right |]; assumption.
    + apply IH; auto. intros; apply Hlow; [right |]; assumption.
Qed.

Lemma threshold_in_force_spec (s : Settings) (threshold : option R) (t : R) :
  threshold_in_force s threshold t -> threshold_or_default s threshold = t.
Proof.
  intros [[-> Ht] | [[-> | ->] ->]].
  - apply threshold_or_default_nonzero. exact Ht.
  - reflexivity.
  - rewrite threshold_or_default_zero. reflexivity.
Qed.

Lemma cosine_similarity_3_4_3_4 :
  cosine_similarity [3; 4] (embedding_of rule_3_4) = Ok 1.
Proof.
  change (embedding_of rule_3_4) with [3; 4].
  rewrite cosine_similarity_same_length by reflexivity.
  rewrite cosine_self; [reflexivity |].
  exists 3. split; [left; reflexivity | lra].
Qed.

(** C3, as the code has it.  For every candidate embedding, every list of
    existing rules and every threshold, passed or not, [find_similar_rule]
    compares with the threshold in force: the one passed when it is not
    zero, the configured [similarity_threshold] when none is passed or the
    one passed is 0.0.  It returns [None] when every rule carrying an
    embedding has a similarity below the threshold in force, and the first
    rule in input order that carries an embedding and has a similarity at or
    above it when there is one; the rule it returns carries an embedding, so
    rules without one are skipped.  The similarities are the values
    [cosine_similarity] returns, which it does on vectors of one length:
    when the scan reaches a rule whose embedding has another length than the
    candidate, the call raises [ValueError]. *)
Theorem C3_find_similar_rule (s : Settings) (emb : list R)
    (rules : list RuleDict.t) (threshold : option R) (t : R) :
  threshold_in_force s threshold t ->
  ((forall r, In r rules -> embedded r = true ->
              exists x, cosine_similarity emb (embedding_of r) = Ok x /\ x < t) ->
   find_similar_rule s emb rules threshold = Ok None)
  /\ (forall pre r post x,
        rules = pre ++ r :: post ->
        embedded r = true ->
        cosine_similarity emb (embedding_of r) = Ok x ->
        t <= x ->
        (forall q, In q pre -> embedded q = true ->
                   exists y, cosine_similarity emb (embedding_of q) = Ok y
                             /\ y < t) ->
        find_similar_rule s emb rules threshold = Ok (Some r))
  /\ (forall r, find_similar_rule s emb rules threshold = Ok (Some r) ->
                In r rules /\ embedded r = true
                /\ exists x, cosine_similarity emb (embedding_of r) = Ok x
                             /\ t <= x)
  /\ (forall pre r post,
        rules = pre ++ r :: post ->
        embedded r = true ->
        List.length emb <> List.length (embedding_of r) ->
        (forall q, In q pre -> embedded q = true ->
                   exists y, cosine_similarity emb (embedding_of q) = Ok y
                             /\ y < t) ->
        find_similar_rule s emb rules threshold = Raise ValueError).
Proof.
  intros Ht. unfold find_similar_rule.
  rewrite (threshold_in_force_spec s threshold t Ht).
  split; [| split; [| split]].
  - apply find_similar_loop_none.
  - intros pre r post x -> He Hx Hge Hlow.
    apply find_similar_loop_first with (x := x); assumption.
  - intros r. apply find_similar_loop_some.
  - intros pre r post -> He Hlen Hlow.
    apply find_similar_loop_raise; assumption.
Qed.

(** An explicit threshold 0.5 matches the rule of similarity 0.6; without a
    threshold the configured 0.85 is in force: the same rule does not
    match, and it does match a candidate of similarity 1. *)
Lemma C3_find_similar_rule_witness :
  threshold_in_force default_settings (Some 0.5) 0.5
  /\ find_similar_rule default_settings [1; 0] [rule_3_4] (Some 0.5)
     = Ok (Some rule_3_4)
  /\ threshold_in_force default_settings None 0.85
  /\ find_similar_rule default_settings [1; 0] [rule_3_4] None = Ok None
  /\ find_similar_rule default_settings [3; 4] [rule_3_4] None
     = Ok (Some rule_3_4).
Proof.
  assert (Ht : threshold_in_force default_settings (Some 0.5) 0.5)
    by (left; split; [reflexivity | lra]).
  assert (Hd : threshold_in_force default_settings None 0.85)
    by (right; split; [left; reflexivity | reflexivity]).
  split; [exact Ht | split; [| split; [exact Hd | split]]].
  - destruct (C3_find_similar_rule default_settings [1; 0] [rule_3_4]
                (Some 0.5) 0.5 Ht) as [_ [Hfirst _]].
    apply (Hfirst [] rule_3_4 [] 0.6); try reflexivity.
    + apply cosine_similarity_1_0_3_4.
    + lra.
    + intros q [].
  - destruct (C3_find_similar_rule default_settings [1; 0] [rule_3_4]
                None 0.85 Hd) as [Hnone _].
    apply Hnone. intros r [<- | []] _. exists 0.6.
    split; [apply cosine_similarity_1_0_3_4 | lra].
  - destruct (C3_find_similar_rule default_settings [3; 4] [rule_3_4]
                None 0.85 Hd) as [_ [Hfirst _]].
    apply (Hfirst [] rule_3_4 [] 1); try reflexivity.
    + apply cosine_similarity_3_4_3_4.
    + lra.
    + intros q [].
Defined.

(** C3 as stated fails at the threshold 0: the only rule carries an
    embedding of similarity 0.6, which is at or above 0, and
    [find_similar_rule] returns [None], having compared with the
    configured 0.85.  It also fails on a candidate of another length than
    the rule's embedding: the call raises. *)
Lemma C3_counterexample :
  In rule_3_4 [rule_3_4]
  /\ embedded rule_3_4 = true
  /\ cosine_similarity [1; 0] (embedding_of rule_3_4) = Ok 0.6
  /\ 0 <= 0.6
  /\ find_similar_rule default_settings [1; 0] [rule_3_4] (Some 0) = Ok None
  /\ find_similar_rule default_settings [1] [rule_3_4] (Some 0.5)
     = Raise ValueError.
Proof.
  split; [left; reflexivity |].
  split; [reflexivity |].
  split; [apply cosine_similarity_1_0_3_4 |].
  split; [lra |].
  split; [apply find_similar_zero_threshold_example |].
  reflexivity.
Qed.

(** C10. For every candidate embedding and every list of existing rules,
    [find_similar_rule] with the explicit threshold 0.0 is
    [find_similar_rule] with no threshold: the configured
    [similarity_threshold] replaces the falsy 0.0.  So a rule carrying an
    embedding of similarity 0.6 does not match under an explicit zero
    threshold and the default 0.85. *)
Theorem C10_zero_threshold_is_default :
  (forall (s : Settings) (emb : list R) (rules : list RuleDict.t),
      find_similar_rule s emb rules (Some 0) = find_similar_rule s emb rules None)
  /\ threshold_or_default default_settings (Some 0) = 0.85
  /\ embedded rule_3_4 = true
  /\ cosine_similarity [1; 0] (embedding_of rule_3_4) = Ok 0.6
  /\ find_similar_rule default_settings [1; 0] [rule_3_4] (Some 0) = Ok None.
Proof.
  split; [| split; [| split; [| split]]].
  - intros s emb rules. unfold find_similar_rule.
    rewrite threshold_or_default_zero. reflexivity.
  - rewrite threshold_or_default_zero. reflexivity.
  - reflexivity.
  - apply cosine_similarity_1_0_3_4.
  - apply find_similar_zero_threshold_example.
Qed.

(** ** Merging *)

(** C8. [merge_rules] returns the existing rule with [times_reinforced]
    one more, [last_reinforced_at] the current time, [confidence] the
    smaller of 0.95 and the old confidence plus 0.1, and every other key as
    it was; a rule of confidence 0.5 never reinforced comes out with
    confidence 0.6 and one reinforcement. *)
Theorem C8_merge_rules (now : datetime) (existing_rule : RuleDict.t)
    (new_correction : string) :
  let merged := merge_rules now existing_rule new_correction in
  RuleDict.times_reinforced merged
    = Some (dict_get (RuleDict.times_reinforced existing_rule) 0 + 1)%Z
  /\ RuleDict.last_reinforced_at merged = Some now
  /\ RuleDict.confidence merged
     = Some (Rmin 0.95 (dict_get (RuleDict.confidence existing_rule) 0.5 + 0.1))
  /\ RuleDict.id merged = RuleDict.id existing_rule
  /\ RuleDict.content merged = RuleDict.content existing_rule
  /\ RuleDict.original_correction merged
     = RuleDict.original_correction existing_rule
  /\ RuleDict.category merged = RuleDict.category existing_rule
  /\ RuleDict.times_applied merged = RuleDict.times_applied existing_rule
  /\ RuleDict.status merged = RuleDict.status existing_rule
  /\ RuleDict.created_at merged = RuleDict.created_at existing_rule
  /\ RuleDict.updated_at merged = RuleDict.updated_at existing_rule
  /\ RuleDict.last_applied_at merged = RuleDict.last_applied_at existing_rule
  /\ RuleDict.embedding merged = RuleDict.embedding existing_rule
  /\ (let merged_05 :=
        merge_rules now
          (rule_with (RuleDict.content existing_rule) (Some 0.5) (Some 0%Z)
             (RuleDict.last_applied_at existing_rule)
             (RuleDict.embedding existing_rule))
          new_correction in
      RuleDict.confidence merged_05 = Some 0.6
      /\ RuleDict.times_reinforced merged_05 = Some 1%Z).
Proof.
  simpl. rewrite <- !py_min_Rmin. repeat split.
  f_equal. unfold Py.min. cmp_cases; lra.
Qed.

(** ** Ranking *)

Lemma insert_desc_perm (p : RuleDict.t * R) (l : list (RuleDict.t * R)) :
  Permutation (insert_desc p l) (p :: l).
Proof.
  induction l as [|q l IH]; simpl; [reflexivity |].
  destruct (Rltb (snd p) (snd q)); [| reflexivity].
  rewrite IH. apply perm_swap.
Qed.

Lemma sort_desc_perm (l : list (RuleDict.t * R)) : Permutation (sort_desc l) l.
Proof.
  induction l as [|p l IH]; simpl; [reflexivity |].
  rewrite insert_desc_perm. apply perm_skip. exact IH.
Qed.

Lemma insert_desc_sorted (p : RuleDict.t * R) (l : list (RuleDict.t * R)) :
  StronglySorted score_ge l -> StronglySorted score_ge (insert_desc p l).
Proof.
  induction l as [|q l IH]; intros Hl; simpl.
  - constructor; constructor.
  - inversion Hl as [|? ? Hl' Hq]; subst.
    destruct (Rltb (snd p) (snd q)) eqn:E.
    + apply Rltb_true in E. constructor; [apply IH; exact Hl' |].
      apply Forall_forall. intros r Hr.
      apply (Permutation_in _ (insert_desc_perm p l)) in Hr.
      destruct Hr as [<- | Hr].
      * unfold score_ge. lra.
      * rewrite Forall_forall in Hq. apply Hq. exact Hr.
    + apply Rltb_false in E. constructor; [exact Hl |].
      constructor; [exact E |].
      apply Forall_forall. intros r Hr. rewrite Forall_forall in Hq.
      specialize (Hq r Hr). unfold score_ge in *. lra.
Qed.

Lemma sort_desc_sorted (l : list (RuleDict.t * R)) :
  StronglySorted score_ge (sort_desc l).
Proof.
  induction l as [|p l IH]; simpl; [constructor |].
  apply insert_desc_sorted. exact IH.
Qed.

Lemma insert_desc_stable (x : R) (p : RuleDict.t * R)
    (l : list (RuleDict.t * R)) :
  with_score x (insert_desc p l) = with_score x (p :: l).
Proof.
  unfold with_score.
  induction l as [|q l IH]; simpl; [reflexivity |].
  destruct (Rltb (snd p) (snd q)) eqn:E; [| reflexivity].
  apply Rltb_true in E. simpl. rewrite IH. simpl.
  destruct (Reqb (snd p) x) eqn:Ep; [| reflexivity].
  apply Reqb_true in Ep.
  assert (Eq : Reqb (snd q) x = false) by (apply Reqb_false; lra).
  rewrite Eq. reflexivity.
Qed.

Lemma sort_desc_stable (x : R) (l : list (RuleDict.t * R)) :
  with_score x (sort_desc l) = with_score x l.
Proof.
  induction l as [|p l IH]; simpl; [reflexivity |].
  rewrite insert_desc_stable. unfold with_score in *. simpl.
  rewrite IH. reflexivity.
Qed.

Lemma slice_to_nonneg {A : Type} (n : Z) (l : list A) :
  (0 <= n)%Z -> slice_to n l = firstn (Z.to_nat n) l.
Proof.
  intros Hn. unfold slice_to.
  destruct (0 <=? n)%Z eqn:E; [reflexivity |].
  apply Z.leb_gt in E. lia.
Qed.

Lemma context_dimension_tail (ctx : option (list R)) (rule : RuleDict.t)
    (rules : list RuleDict.t) :
  context_dimension ctx (rule :: rules) -> context_dimension ctx rules.
Proof.
  unfold context_dimension. destruct ctx as [[|c v] |]; auto.
  intros H. inversion H; assumption.
Qed.

Lemma relevance_same_dimension (ctx : option (list R)) (rule : RuleDict.t)
    (rules : list RuleDict.t) :
  context_dimension ctx (rule :: rules) ->
  relevance ctx rule = Ok (relevance_value ctx rule).
Proof.
  unfold context_dimension, relevance, relevance_value.
  fold (embedded rule). fold (embedding_of rule).
  assert (H1 : @Ok R 1.0 = Ok 1) by (f_equal; lra).
  destruct ctx as [[|c v] |]; simpl; try exact (fun _ => H1).
  intros H. inversion H as [|? ? Hrule _]; subst.
  destruct (embedded rule) eqn:He; [| exact H1].
  apply cosine_similarity_same_length. symmetry. apply Hrule. reflexivity.
Qed.

Lemma for_each_rank_body (s : Settings) (now : datetime)
    (ctx : option (list R)) (rules : list RuleDict.t) :
  context_dimension ctx rules ->
  forall acc,
    for_each (rank_body s now ctx) rules acc
    = Ok (acc ++ map (fun r => (r, score now ctx r)) (filter (eligible s) rules)).
Proof.
  induction rules as [|rule rules IH]; intros Hdim acc; simpl.
  - rewrite app_nil_r. reflexivity.
  - unfold rank_body at 1.
    rewrite (relevance_same_dimension ctx rule rules Hdim). simpl.
    fold (eligible s rule). fold (score now ctx rule).
    destruct (eligible s rule); simpl.
    + rewrite IH by (eapply context_dimension_tail; exact Hdim).
      rewrite <- app_assoc. reflexivity.
    + apply IH. eapply context_dimension_tail; exact Hdim.
Qed.

Lemma for_each_rank_body_inv (s : Settings) (now : datetime)
    (ctx : option (list R)) (rules : list RuleDict.t) :
  forall acc out,
    for_each (rank_body s now ctx) rules acc = Ok out ->
    exists scored,
      out = acc ++ scored
      /\ map fst scored = filter (eligible s) rules
      /\ Forall (scored_as now ctx) scored.
Proof.
  induction rules as [|rule rules IH]; intros acc out; simpl.
  - intros H. injection H as <-. exists []. rewrite app_nil_r. auto.
  - unfold rank_body at 1. unfold relevance at 1.
    fold (eligible s rule).
    destruct (truthy_opt_list ctx && truthy_opt_list (RuleDict.embedding rule))
      eqn:Eboth.
    + destruct (cosine_similarity _ _) as [rel | e] eqn:Ecos; simpl;
        [| discriminate].
      destruct (eligible s rule); simpl; intros H.
      * destruct (IH _ _ H) as [scored [-> [Hmap Hall]]].
        exists ((rule, dict_get (RuleDict.confidence rule) 0.5 * rel
                       * recency_boost now rule) :: scored).
        rewrite <- app_assoc. simpl. rewrite Hmap.
        repeat split; auto. constructor; [| exact Hall].
        exists rel. simpl. rewrite Eboth. auto.
      * apply IH. exact H.
    + simpl. destruct (eligible s rule); simpl; intros H.
      * destruct (IH _ _ H) as [scored [-> [Hmap Hall]]].
        exists ((rule, dict_get (RuleDict.confidence rule) 0.5 * 1.0
                       * recency_boost now rule) :: scored).
        rewrite <- app_assoc. simpl. rewrite Hmap.
        repeat split; auto. constructor; [| exact Hall].
        exists 1.0. simpl. rewrite Eboth. auto.
      * apply IH. exact H.
Qed.

Lemma cosine_similarity_raises (v1 v2 : list R) (e : exn) :
  cosine_similarity v1 v2 = Raise e -> e = ValueError.
Proof.
  unfold cosine_similarity, np_dot.
  destruct (Nat.eqb (List.length v1) (List.length v2)); simpl.
  - destruct (Reqb (np_linalg_norm v1) 0 || Reqb (np_linalg_norm v2) 0);
      discriminate.
  - intros H. injection H as <-. reflexivity.
Qed.

(** A rule whose embedding has another length than a non-empty context
    embedding stops the loop, eligible or not. *)
Lemma for_each_rank_body_raise (s : Settings) (now : datetime) (c : R)
    (v : list R) (rules : list RuleDict.t) (rule : RuleDict.t) :
  In rule rules ->
  embedded rule = true ->
  List.length (embedding_of rule) <> List.length (c :: v) ->
  forall acc,
    for_each (rank_body s now (Some (c :: v))) rules acc = Raise ValueError.
Proof.
  intros Hin He Hlen.
  induction rules as [|r rules IH]; intros acc; [contradiction |].
  simpl. unfold rank_body at 1. unfold relevance at 1.
  simpl truthy_opt_list. simpl truthy_value.
  fold (embedded r). fold (embedding_of r).
  destruct (embedded r) eqn:Er; simpl andb; cbv iota.
  - destruct (cosine_similarity (c :: v) (embedding_of r)) as [rel | e] eqn:Ec.
    + simpl. destruct Hin as [-> | Hin].
      * rewrite cosine_similarity_mismatch in Ec
          by (intros H; apply Hlen; symmetry; exact H).
        discriminate.
      * destruct (Rleb _ _); simpl; apply IH; exact Hin.
    + simpl. rewrite (cosine_similarity_raises _ _ e Ec). reflexivity.
  - simpl. destruct Hin as [-> | Hin]; [congruence |].
    destruct (Rleb _ _); simpl; apply IH; exact Hin.
Qed.

(** C7, as the code has it.  [rank_rules] returns when the context
    embedding is absent or empty, and when every rule that carries an
    embedding has one of the context embedding's length; on a non-empty
    context embedding and a rule carrying an embedding of another length it
    raises [ValueError].  For every list of rules, every context embedding
    and every non-negative [max_rules]: what [rank_rules] returns is the
    first [max_rules] pairs of a list [ranked] that rearranges [scored], the
    rules of confidence at or above [confidence_threshold] in input order,
    each paired with [confidence * relevance * recency_boost] (relevance the
    cosine similarity when both embeddings are there, 1.0 otherwise);
    [ranked] is in descending order of score, and pairs of equal score keep
    their input order. *)
Theorem C7_rank_rules (s : Settings) (now : datetime)
    (rules : list RuleDict.t) (context_embedding : option (list R))
    (max_rules : Z) :
  (0 <= max_rules)%Z ->
  (context_dimension context_embedding rules ->
   exists result,
     rank_rules s now rules context_embedding max_rules = Ok result)
  /\ (forall c v rule,
        context_embedding = Some (c :: v) ->
        In rule rules ->
        embedded rule = true ->
        List.length (embedding_of rule) <> List.length (c :: v) ->
        rank_rules s now rules context_embedding max_rules = Raise ValueError)
  /\ forall result,
       rank_rules s now rules context_embedding max_rules = Ok result ->
       exists scored ranked,
         map fst scored
           = filter (fun rule =>
                       Rleb (confidence_threshold s)
                            (dict_get (RuleDict.confidence rule) 0.5))
                    rules
         /\ Forall (scored_as now context_embedding) scored
         /\ Permutation ranked scored
         /\ StronglySorted (fun p q => snd q <= snd p) ranked
         /\ (forall x, filter (fun p => Reqb (snd p) x) ranked
                       = filter (fun p => Reqb (snd p) x) scored)
         /\ result = firstn (Z.to_nat max_rules) ranked.
Proof.
  intros Hmax. split; [| split].
  - intros Hdim. unfold rank_rules.
    rewrite (for_each_rank_body s now context_embedding rules Hdim []).
    simpl. eexists. reflexivity.
  - intros c v rule -> Hin He Hlen. unfold rank_rules.
    rewrite (for_each_rank_body_raise s now c v rules rule Hin He Hlen).
    reflexivity.
  - intros result. unfold rank_rules.
    destruct (for_each _ rules []) as [out | e] eqn:Eloop; simpl;
      [| discriminate].
    intros H. injection H as <-.
    destruct (for_each_rank_body_inv s now context_embedding rules [] out Eloop)
      as [scored [-> [Hmap Hall]]].
    simpl. exists scored, (sort_desc scored).
    split; [exact Hmap | split; [exact Hall | split; [| split; [| split]]]].
    + apply sort_desc_perm.
    + apply sort_desc_sorted.
    + intros x. apply sort_desc_stable.
    + apply slice_to_nonneg. exact Hmax.
Qed.

Lemma C7_rank_rules_witness :
  (0 <= 10)%Z
  /\ (exists result,
        rank_rules default_settings 0%Z [rule_3_4] (Some [1; 0]) 10
        = Ok result)
  /\ rank_rules default_settings 0%Z [rule_3_4] (Some [1]) 10
     = Raise ValueError.
Proof.
  split; [lia | split].
  - destruct (C7_rank_rules default_settings 0%Z [rule_3_4] (Some [1; 0]) 10
                ltac:(lia)) as [Hreturns _].
    apply Hreturns. constructor; [reflexivity | constructor].
  - destruct (C7_rank_rules default_settings 0%Z [rule_3_4] (Some [1]) 10
                ltac:(lia)) as [_ [Hraises _]].
    apply (Hraises 1 [] rule_3_4); [reflexivity | left; reflexivity
                                   | reflexivity | simpl; lia].
Defined.

(** C7 as stated fails where [rank_rules] returns no list: a rule whose
    embedding has another length than the context embedding makes it raise.
    It also fails for a negative [max_rules]: the slice then drops pairs
    from the end, and one pair is returned for [max_rules = -1]. *)
Lemma C7_counterexample :
  rank_rules default_settings 0%Z [rule_3_4] (Some [1]) 10 = Raise ValueError
  /\ exists sb,
       rank_rules default_settings 0%Z [rule_a; rule_b] None (-1)
       = Ok [(rule_b, sb)].
Proof.
  split; [reflexivity |].
  exists (score 0%Z None rule_b).
  assert (Ha : score 0%Z None rule_a = 0.5)
    by (unfold score, relevance_value, recency_boost; simpl; lra).
  assert (Hb : score 0%Z None rule_b = 0.9)
    by (unfold score, relevance_value, recency_boost; simpl; lra).
  unfold rank_rules.
  rewrite (for_each_rank_body default_settings 0%Z None [rule_a; rule_b] I []).
  simpl filter.
  replace (eligible default_settings rule_a) with true
    by (symmetry; apply Rleb_true; simpl; lra).
  replace (eligible default_settings rule_b) with true
    by (symmetry; apply Rleb_true; simpl; lra).
  simpl. rewrite Ha, Hb.
  replace (Rltb 0.5 0.9) with true by (symmetry; apply Rltb_true; lra).
  reflexivity.
Qed.

(** Without a context the score is the confidence: the rule of 0.9 comes
    first, the two rules of 0.5 keep their order, the rule of 0.2 is left
    out, and two rules are kept of the three. *)
Example rank_rules_example :
  exists sa sb,
    rank_rules default_settings 0%Z [rule_a; rule_b; rule_c; rule_d] None 2
    = Ok [(rule_b, sb); (rule_a, sa)]
    /\ sa = 0.5 /\ sb = 0.9.
Proof.
  exists (score 0%Z None rule_a), (score 0%Z None rule_b).
  assert (Ha : score 0%Z None rule_a = 0.5) by (unfold score, relevance_value, recency_boost; simpl; lra).
  assert (Hb : score 0%Z None rule_b = 0.9) by (unfold score, relevance_value, recency_boost; simpl; lra).
  assert (Hc : score 0%Z None rule_c = 0.5) by (unfold score, relevance_value, recency_boost; simpl; lra).
  split; [| split; assumption].
  unfold rank_rules.
  rewrite (for_each_rank_body default_settings 0%Z None
             [rule_a; rule_b; rule_c; rule_d] I []).
  simpl filter.
  replace (eligible default_settings rule_a) with true
    by (symmetry; apply Rleb_true; simpl; lra).
  replace (eligible default_settings rule_b) with true
    by (symmetry; apply Rleb_true; simpl; lra).
  replace (eligible default_settings rule_c) with true
    by (symmetry; apply Rleb_true; simpl; lra).
  replace (eligible default_settings rule_d) with false
    by (symmetry; apply Rleb_false; simpl; lra).
  assert (E1 : Rltb 0.9 0.5 = false) by (apply Rltb_false; lra).
  assert (E2 : Rltb 0.5 0.9 = true) by (apply Rltb_true; lra).
  assert (E3 : Rltb 0.5 0.5 = false) by (apply Rltb_false; lra).
  simpl. rewrite Ha, Hb, Hc.
  repeat (simpl; rewrite ?E1, ?E2, ?E3).
  reflexivity.
Qed.

(** ** Selection under a token budget *)

Lemma total_tokens_app (l1 l2 : list RuleDict.t) :
  total_tokens (l1 ++ l2) = (total_tokens l1 + total_tokens l2)%Z.
Proof.
  induction l1 as [|r l1 IH]; simpl; [reflexivity |].
  unfold total_tokens in *. simpl. rewrite IH. lia.
Qed.

Lemma total_tokens_snoc (l : list RuleDict.t) (r : RuleDict.t) :
  total_tokens (l ++ [r]) = (total_tokens l + rule_tokens r)%Z.
Proof. rewrite total_tokens_app. unfold total_tokens. simpl. lia. Qed.

(** The loop keeps the running total equal to the cost of what it has
    selected and within the budget; it takes a prefix of the ranking and
    stops at the end or at the first rule that does not fit. *)
Lemma select_loop_greedy (max_tokens : Z) (ranked : list (RuleDict.t * R)) :
  forall (selected : list RuleDict.t) (estimated_tokens : Z),
    estimated_tokens = total_tokens selected ->
    (estimated_tokens <= max_tokens)%Z ->
    exists taken rest,
      select_loop max_tokens ranked selected estimated_tokens
        = selected ++ taken
      /\ map fst ranked = taken ++ rest
      /\ (total_tokens (selected ++ taken) <= max_tokens)%Z
      /\ (rest = []
          \/ exists r rest',
               rest = r :: rest'
               /\ (max_tokens
                   < total_tokens (selected ++ taken) + rule_tokens r)%Z).
Proof.
  induction ranked as [|[rule sc] ranked IH]; intros selected est Hest Hle; simpl.
  - exists [], []. rewrite app_nil_r. subst est. auto.
  - destruct (max_tokens <? est + rule_tokens rule)%Z eqn:E.
    + apply Z.ltb_lt in E. exists [], (rule :: map fst ranked).
      rewrite app_nil_r. subst est. repeat split; auto.
      right. exists rule, (map fst ranked). auto.
    + apply Z.ltb_ge in E.
      destruct (IH (selected ++ [rule]) (est + rule_tokens rule)%Z)
        as [taken [rest [Hsel [Hmap [Htot Hstop]]]]].
      * rewrite total_tokens_snoc. lia.
      * exact E.
      * exists (rule :: taken), rest.
        rewrite <- app_assoc in Hsel, Htot, Hstop. simpl in *.
        rewrite Hmap. auto.
Qed.

Lemma select_rules_for_prompt_returns (s : Settings) (now : datetime)
    (rules : list RuleDict.t) (ctx : option (list R)) (max_tokens : Z) :
  context_dimension ctx rules ->
  exists selected, select_rules_for_prompt s now rules ctx max_tokens = Ok selected.
Proof.
  intros Hdim. unfold select_rules_for_prompt, rank_rules.
  rewrite (for_each_rank_body s now ctx rules Hdim []). simpl.
  eexists. reflexivity.
Qed.

Lemma select_rules_for_prompt_example :
  select_rules_for_prompt default_settings 0%Z [rule_bullets] None 500
  = Ok [rule_bullets].
Proof.
  unfold select_rules_for_prompt, rank_rules.
  rewrite (for_each_rank_body default_settings 0%Z None [rule_bullets] I []).
  simpl.
  assert (E : eligible default_settings rule_bullets = true)
    by (apply Rleb_true; simpl; lra).
  rewrite E. reflexivity.
Qed.

(** A negative budget selects nothing, whatever the rules. *)
Lemma select_loop_negative_budget (max_tokens : Z)
    (ranked : list (RuleDict.t * R)) :
  (max_tokens < 0)%Z -> select_loop max_tokens ranked [] 0 = [].
Proof.
  intros Hneg. destruct ranked as [|[rule sc] ranked]; simpl; [reflexivity |].
  assert (0 <= rule_tokens rule)%Z
    by (unfold rule_tokens; apply Z.div_pos; lia).
  destruct (max_tokens <? rule_tokens rule)%Z eqn:E; [reflexivity |].
  apply Z.ltb_ge in E. lia.
Qed.

(** C2.  For every list of rules, every context embedding, present or
    absent, and every budget [max_tokens] (a number of tokens, so not
    negative), the list [select_rules_for_prompt] returns costs at most
    [max_tokens], the cost of a rule being [len(content) // 4]; it is a
    prefix of the ranking, and it ends where the ranking ends or at the first
    ranked rule whose cost would take the running total over the budget: no
    later rule is looked at.  [select_rules_for_prompt] does return when the
    rules' embeddings have the dimension of the context embedding. *)
Theorem C2_select_rules_for_prompt (s : Settings) (now : datetime)
    (rules : list RuleDict.t) (context_embedding : option (list R))
    (max_tokens : Z) :
  (0 <= max_tokens)%Z ->
  (context_dimension context_embedding rules ->
   exists selected,
     select_rules_for_prompt s now rules context_embedding max_tokens
       = Ok selected)
  /\ forall selected,
       select_rules_for_prompt s now rules context_embedding max_tokens
         = Ok selected ->
       (total_tokens selected <= max_tokens)%Z
       /\ exists ranked rest,
            rank_rules s now rules context_embedding 10 = Ok ranked
            /\ map fst ranked = selected ++ rest
            /\ (rest = []
                \/ exists r rest',
                     rest = r :: rest'
                     /\ (max_tokens
                         < total_tokens selected + rule_tokens r)%Z).
Proof.
  intros Hmax. split.
  - apply select_rules_for_prompt_returns.
  - intros selected. unfold select_rules_for_prompt.
    destruct (rank_rules s now rules context_embedding 10) as [ranked | e];
      simpl; [| discriminate].
    intros H. injection H as <-.
    destruct (select_loop_greedy max_tokens ranked [] 0%Z eq_refl Hmax)
      as [taken [rest [Hsel [Hmap [Htot Hstop]]]]].
    simpl in *. rewrite Hsel. split; [exact Htot |].
    exists ranked, rest. auto.
Qed.

Lemma C2_select_rules_for_prompt_witness :
  (0 <= 500)%Z
  /\ select_rules_for_prompt default_settings 0%Z [rule_bullets] None 500
     = Ok [rule_bullets]
  /\ (total_tokens [rule_bullets] <= 500)%Z.
Proof.
  split; [lia | split; [apply select_rules_for_prompt_example |]].
  destruct (C2_select_rules_for_prompt default_settings 0%Z [rule_bullets]
              None 500 ltac:(lia)) as [_ Hcost].
  apply (Hcost [rule_bullets]). apply select_rules_for_prompt_example.
Defined.

(** ** The correction pipeline *)

Local Open Scope string_scope.

(** [contains] is the substring test. *)
Lemma prefix_app (kw s : string) :
  prefix kw s = true <-> exists post, s = kw ++ post.
Proof.
  revert s. induction kw as [|c kw IH]; intros s; simpl.
  - destruct s; (split; [intros _; eexists; reflexivity | reflexivity]).
  - destruct s as [|d s].
    + split; [discriminate | intros [post H]; discriminate].
    + simpl. destruct (ascii_dec c d) as [-> | Hcd].
      * rewrite IH. split; intros [post H]; exists post.
        -- rewrite H. reflexivity.
        -- injection H as H. exact H.
      * split; [discriminate |].
        intros [post H]. injection H as H1 H2. congruence.
Qed.

Lemma contains_nil (kw : string) :
  contains kw EmptyString = prefix kw EmptyString.
Proof. unfold contains. apply orb_false_r. Qed.

Lemma contains_cons (kw : string) (d : ascii) (s : string) :
  contains kw (String d s) = prefix kw (String d s) || contains kw s.
Proof. reflexivity. Qed.

Lemma contains_substring (kw s : string) :
  contains kw s = true <-> exists pre post, s = pre ++ kw ++ post.
Proof.
  induction s as [|d s IH].
  - rewrite contains_nil, prefix_app. split.
    + intros [post H]. exists EmptyString, post. exact H.
    + intros [pre [post H]]. destruct pre as [|c pre]; [| discriminate].
      exists post. exact H.
  - rewrite contains_cons, orb_true_iff, prefix_app, IH. split.
    + intros [[post H] | [pre [post H]]].
      * exists EmptyString, post. exact H.
      * exists (String d pre), post. simpl. rewrite H. reflexivity.
    + intros [pre [post H]]. destruct pre as [|c pre]; simpl in H.
      * left. exists post. exact H.
      * right. injection H as _ H. exists pre, post. exact H.
Qed.

Lemma detect_correction_fallback (llm : string -> result json)
    (P : string -> string -> string) (user_message previous_response : string)
    (e : exn) :
  llm (P (substring 0 1000 previous_response) user_message) = Raise e ->
  detect_correction llm P user_message previous_response
  = keyword_fallback user_message.
Proof. intros H. unfold detect_correction. rewrite H. reflexivity. Qed.

(** The fallback reads the message through [lower] only: two messages that
    differ in letter case get the same answer. *)
Lemma keyword_fallback_case_insensitive (m1 m2 : string) :
  lower m1 = lower m2 -> keyword_fallback m1 = keyword_fallback m2.
Proof. intros H. unfold keyword_fallback. rewrite H. reflexivity. Qed.

Example keyword_fallback_upper_lower :
  lower "NEVER use emoji" = lower "never use emoji"
  /\ keyword_fallback "NEVER use emoji" = (true, "style", 0.5%R).
Proof.
  split; [reflexivity |]. unfold keyword_fallback.
  replace (existsb (fun kw => contains kw (lower "NEVER use emoji"))
             correction_keywords) with true by (vm_compute; reflexivity).
  reflexivity.
Qed.






Local Close Scope string_scope.

(** ** The decay sweep *)

(** An active rule the sweep leaves active is a fixed point of the body:
    its confidence is the recomputed one, or within 0.01 of it. *)
Lemma decay_body_fixed (s : Settings) (now : datetime) (acc acc2 : sweep)
    (rule : Rule.t) :
  Rule.status (fst (decay_body s now acc rule)) = ACTIVE ->
  decay_body s now acc2 (fst (decay_body s now acc rule))
  = (fst (decay_body s now acc rule), acc2).
Proof.
  unfold decay_body.
  set (new := calculate_confidence s now 0.5 (Rule.times_reinforced rule)
                (Rule.last_applied_at rule) None).
  destruct (Rltb 0.01 (Py.abs (new - Rule.confidence rule))) eqn:Echange;
    destruct (should_archive_rule s new) eqn:Earch; simpl;
    try discriminate; intros _; fold new; rewrite Earch.
  - assert (E : Rltb 0.01 (Py.abs (new - new)) = false).
    { apply Rltb_false. unfold Py.abs.
      replace (new - new) with 0 by lra. rewrite Rabs_R0. lra. }
    rewrite E. reflexivity.
  - rewrite Echange. reflexivity.
Qed.

Lemma decay_loop_fixed (s : Settings) (now : datetime) (table : list Rule.t) :
  forall acc acc2,
    decay_loop s now (fst (decay_loop s now table acc)) acc2
    = (fst (decay_loop s now table acc), acc2).
Proof.
  induction table as [|rule rest IH]; intros acc acc2; simpl; [reflexivity |].
  destruct (RuleStatus_eqb (Rule.status rule) ACTIVE) eqn:Eact.
  - destruct (decay_body s now acc rule) as [rule' acc'] eqn:Ebody.
    specialize (IH acc').
    destruct (decay_loop s now rest acc') as [rest' acc''] eqn:Eloop.
    simpl in *.
    assert (Hrule' : rule' = fst (decay_body s now acc rule))
      by (rewrite Ebody; reflexivity).
    destruct (RuleStatus_eqb (Rule.status rule') ACTIVE) eqn:Eact'.
    + assert (Hact' : Rule.status rule' = ACTIVE)
        by (destruct (Rule.status rule'); simpl in Eact'; congruence).
      rewrite Hrule' in Hact' |- *.
      rewrite (decay_body_fixed s now acc acc2 rule Hact').
      rewrite IH. reflexivity.
    + rewrite IH. reflexivity.
  - specialize (IH acc).
    destruct (decay_loop s now rest acc) as [rest' acc'] eqn:Eloop.
    simpl in *. rewrite Eact, IH. reflexivity.
Qed.

(** C5. A second sweep at the same instant over what the first one left
    changes nothing: the table is the same (no confidence moves, no rule is
    archived), both counts are zero, no audit event is added and no cache
    entry is touched. *)
Theorem C5_process_decay_idempotent (s : Settings) (now : datetime)
    (table : list Rule.t) (audit_log : list AuditLog) (c : cache) :
  let first := process_decay s now table audit_log c in
  let second :=
    process_decay s now (out_table first) (out_audit first) (out_cache first) in
  out_table second = out_table first
  /\ out_processed second = 0%Z
  /\ out_archived second = 0%Z
  /\ out_audit second = out_audit first
  /\ out_cache second = out_cache first.
Proof.
  intros first second. unfold second, first, process_decay.
  pose proof (decay_loop_fixed s now table sweep_start sweep_start) as Hfix.
  destruct (decay_loop s now table sweep_start) as [table' acc] eqn:E1.
  simpl in *. rewrite Hfix. simpl.
  rewrite app_nil_r. auto.
Qed.

(** ** Cache invalidation after the sweep *)

Lemma invalidate_not_cached (c : cache) (u : Z) :
  cached (invalidate_user_rules c u) u = false.
Proof.
  unfold cached, invalidate_user_rules.
  induction c as [|v c IH]; simpl; [reflexivity |].
  destruct (Z.eqb v u) eqn:E; simpl; [exact IH |].
  rewrite Z.eqb_sym, E. exact IH.
Qed.

Lemma invalidate_keeps_uncached (c : cache) (u v : Z) :
  cached c u = false -> cached (invalidate_user_rules c v) u = false.
Proof.
  unfold cached, invalidate_user_rules.
  induction c as [|w c IH]; simpl; [reflexivity |].
  intros H. apply orb_false_iff in H. destruct H as [H1 H2].
  destruct (negb (Z.eqb w v)); simpl; [rewrite H1 |]; auto.
Qed.

(** Every user in [users_affected] is invalidated by the final loop. *)
Lemma invalidated_users_uncached (users : list Z) :
  forall (c : cache) (u : Z),
    In u users \/ cached c u = false ->
    cached (fold_left invalidate_user_rules users c) u = false.
Proof.
  induction users as [|v users IH]; intros c u H; simpl.
  - destruct H as [[] | H]; exact H.
  - apply IH. destruct H as [[-> | H] | H].
    + right. apply invalidate_not_cached.
    + left. exact H.
    + right. apply invalidate_keeps_uncached. exact H.
Qed.

Lemma set_add_in (u : Z) (l : list Z) : In u (set_add u l).
Proof.
  unfold set_add. destruct (existsb (Z.eqb u) l) eqn:E.
  - apply existsb_exists in E. destruct E as [v [Hin Hv]].
    apply Z.eqb_eq in Hv. subst v. exact Hin.
  - apply in_or_app. right. left. reflexivity.
Qed.

Lemma set_add_keeps (u v : Z) (l : list Z) : In v l -> In v (set_add u l).
Proof.
  intros H. unfold set_add. destruct (existsb (Z.eqb u) l); [exact H |].
  apply in_or_app. left. exact H.
Qed.

Lemma decay_body_users (s : Settings) (now : datetime) (acc : sweep)
    (rule : Rule.t) (u : Z) :
  In u (users_affected acc) ->
  In u (users_affected (snd (decay_body s now acc rule))).
Proof.
  intros H. unfold decay_body.
  destruct (Rltb 0.01 _); destruct (should_archive_rule s _); simpl;
    try apply set_add_keeps; exact H.
Qed.

Lemma decay_body_decayed (s : Settings) (now : datetime) (acc : sweep)
    (rule : Rule.t) :
  Rltb 0.01
    (Py.abs (calculate_confidence s now 0.5 (Rule.times_reinforced rule)
               (Rule.last_applied_at rule) None
             - Rule.confidence rule)) = true ->
  In (Rule.user_id rule) (users_affected (snd (decay_body s now acc rule))).
Proof.
  intros H. unfold decay_body. rewrite H.
  destruct (should_archive_rule s _); simpl; apply set_add_in.
Qed.

Lemma decay_loop_users (s : Settings) (now : datetime) (table : list Rule.t) :
  forall (acc : sweep) (u : Z),
    In u (users_affected acc) ->
    In u (users_affected (snd (decay_loop s now table acc))).
Proof.
  induction table as [|rule rest IH]; intros acc u H; simpl; [exact H |].
  destruct (RuleStatus_eqb (Rule.status rule) ACTIVE).
  - pose proof (decay_body_users s now acc rule u H) as H'.
    destruct (decay_body s now acc rule) as [rule' acc']. simpl in H'.
    specialize (IH acc' u H').
    destruct (decay_loop s now rest acc') as [rest' acc'']. exact IH.
  - specialize (IH acc u H).
    destruct (decay_loop s now rest acc) as [rest' acc']. exact IH.
Qed.

Lemma decay_loop_decayed (s : Settings) (now : datetime) (table : list Rule.t) :
  forall (acc : sweep) (rule : Rule.t),
    In rule table ->
    Rule.status rule = ACTIVE ->
    Rltb 0.01
      (Py.abs (calculate_confidence s now 0.5 (Rule.times_reinforced rule)
                 (Rule.last_applied_at rule) None
               - Rule.confidence rule)) = true ->
    In (Rule.user_id rule) (users_affected (snd (decay_loop s now table acc))).
Proof.
  induction table as [|r rest IH]; intros acc rule Hin Hact Hchg; simpl;
    [destruct Hin |].
  destruct Hin as [-> | Hin].
  - rewrite Hact. simpl.
    pose proof (decay_body_decayed s now acc rule Hchg) as H'.
    destruct (decay_body s now acc rule) as [rule' acc']. simpl in H'.
    pose proof (decay_loop_users s now rest acc' _ H') as H''.
    destruct (decay_loop s now rest acc') as [rest' acc'']. exact H''.
  - destruct (RuleStatus_eqb (Rule.status r) ACTIVE).
    + destruct (decay_body s now acc r) as [r' acc'].
      specialize (IH acc' rule Hin Hact Hchg).
      destruct (decay_loop s now rest acc') as [rest' acc'']. exact IH.
    + specialize (IH acc rule Hin Hact Hchg).
      destruct (decay_loop s now rest acc) as [rest' acc']. exact IH.
Qed.

(** The part of C6 the code does: the user of an active rule whose
    confidence the sweep changes has no cached snapshot when it returns. *)
Lemma process_decay_invalidates_decayed (s : Settings) (now : datetime)
    (table : list Rule.t) (audit_log : list AuditLog) (c : cache)
    (rule : Rule.t) :
  In rule table ->
  Rule.status rule = ACTIVE ->
  Rltb 0.01
    (Py.abs (calculate_confidence s now 0.5 (Rule.times_reinforced rule)
               (Rule.last_applied_at rule) None
             - Rule.confidence rule)) = true ->
  cached (out_cache (process_decay s now table audit_log c))
         (Rule.user_id rule) = false.
Proof.
  intros Hin Hact Hchg. unfold process_decay.
  pose proof (decay_loop_decayed s now table sweep_start rule Hin Hact Hchg)
    as Hu.
  destruct (decay_loop s now table sweep_start) as [table' acc].
  simpl in *. apply invalidated_users_uncached. left. exact Hu.
Qed.

Lemma stale_rule_recomputed :
  calculate_confidence default_settings seventy_days 0.5 0 (Some 0%Z) None = 0.1.
Proof.
  unfold calculate_confidence, seventy_days.
  replace (Py.days (70 * microseconds_per_day - 0) / 7)%Z with 10%Z
    by (vm_compute; reflexivity).
  simpl decay_rate. unfold Py.max, Py.min. cmp_cases; lra.
Qed.

(** C6 fails on the code.  User 7 has a cached snapshot and one active rule
    whose stored confidence equals the recomputed 0.1.  The sweep archives
    the rule (one archive event, [archived = 1], [processed = 0]) and, the
    confidence not having changed, never adds the user to
    [users_affected]: the snapshot is still cached when the sweep returns. *)
Theorem C6_archived_without_invalidation :
  let outcome := process_decay default_settings seventy_days [stale_rule] [] [7%Z] in
  out_table outcome = [Rule.set_status stale_rule ARCHIVED]
  /\ out_audit outcome = [RULE_ARCHIVED 7 1]
  /\ out_processed outcome = 0%Z
  /\ out_archived outcome = 1%Z
  /\ out_cache outcome = [7%Z]
  /\ cached (out_cache outcome) 7 = true.
Proof.
  unfold process_decay. simpl decay_loop. unfold decay_body.
  change (Rule.times_reinforced stale_rule) with 0%Z.
  change (Rule.last_applied_at stale_rule) with (Some 0%Z).
  change (Rule.confidence stale_rule) with 0.1.
  rewrite stale_rule_recomputed.
  assert (E1 : Rltb 0.01 (Py.abs (0.1 - 0.1)) = false).
  { apply Rltb_false. unfold Py.abs.
    replace (0.1 - 0.1) with 0 by lra. rewrite Rabs_R0. lra. }
  assert (E2 : should_archive_rule default_settings 0.1 = true)
    by (apply Rltb_true; simpl; lra).
  rewrite E1, E2. simpl. repeat split.
Qed.

(** * Further properties of the code

    ** Scoring primitives *)

Lemma py_min_mono (a b c d : R) : a <= c -> b <= d -> Py.min a b <= Py.min c d.
Proof. intros. unfold Py.min. cmp_cases; lra. Qed.

Lemma clamp_mono (c d : R) :
  c <= d -> Py.max 0.1 (Py.min 0.95 c) <= Py.max 0.1 (Py.min 0.95 d).
Proof. intros. unfold Py.max, Py.min. cmp_cases; lra. Qed.

(** X1. [calculate_confidence] does not decrease when the base confidence
    or the number of reinforcements grows, everything else being equal. *)
Theorem X1_confidence_monotone_in_reinforcement (s : Settings) (now : datetime)
    (base1 base2 : R) (n1 n2 : Z) (la lr1 lr2 : option datetime) :
  base1 <= base2 ->
  (n1 <= n2)%Z ->
  calculate_confidence s now base1 n1 la lr1
  <= calculate_confidence s now base2 n2 la lr2.
Proof.
  intros Hb Hn. unfold calculate_confidence.
  apply clamp_mono.
  assert (Hbonus : Py.min (IZR n1 * 0.1) 0.45 <= Py.min (IZR n2 * 0.1) 0.45).
  { apply py_min_mono; [| lra]. apply IZR_le in Hn. lra. }
  lra.
Qed.

Lemma X1_confidence_monotone_in_reinforcement_witness :
  0.5 <= 0.5 /\ (1 <= 3)%Z
  /\ calculate_confidence default_settings 0%Z 0.5 1 None None
     <= calculate_confidence default_settings 0%Z 0.5 3 None None.
Proof.
  assert (Hb : 0.5 <= 0.5) by lra.
  assert (Hn : (1 <= 3)%Z) by lia.
  split; [exact Hb | split; [exact Hn |]].
  apply (X1_confidence_monotone_in_reinforcement default_settings 0%Z
           0.5 0.5 1 3 None None None Hb Hn).
Defined.

Lemma weeks_unused_mono (t now1 now2 : datetime) :
  (now1 <= now2)%Z ->
  (Py.days (now1 - t) / 7 <= Py.days (now2 - t) / 7)%Z.
Proof.
  intros H. unfold Py.days, microseconds_per_day.
  apply Z.div_le_mono; [lia |]. apply Z.div_le_mono; lia.
Qed.

(** X2. With a non-negative decay rate, [calculate_confidence] does not
    increase as time passes: computed at a later instant, for the same
    counters and timestamps, the confidence is the same or lower. *)
Theorem X2_confidence_monotone_in_time (s : Settings) (now1 now2 : datetime)
    (base : R) (n : Z) (la lr : option datetime) :
  0 <= decay_rate s ->
  (now1 <= now2)%Z ->
  calculate_confidence s now2 base n la lr
  <= calculate_confidence s now1 base n la lr.
Proof.
  intros Hr Hnow. unfold calculate_confidence.
  apply clamp_mono.
  destruct la as [t |]; [| lra].
  pose proof (weeks_unused_mono t now1 now2 Hnow) as Hw.
  apply IZR_le in Hw.
  assert (Hp : Py.min (IZR (Py.days (now1 - t) / 7)%Z * decay_rate s) 0.4
               <= Py.min (IZR (Py.days (now2 - t) / 7)%Z * decay_rate s) 0.4).
  { apply py_min_mono; [| lra]. apply Rmult_le_compat_r; assumption. }
  lra.
Qed.

Lemma X2_confidence_monotone_in_time_witness :
  0 <= decay_rate default_settings /\ (0 <= seventy_days)%Z
  /\ calculate_confidence default_settings seventy_days 0.5 0 (Some 0%Z) None
     <= calculate_confidence default_settings 0%Z 0.5 0 (Some 0%Z) None.
Proof.
  assert (Hr : 0 <= decay_rate default_settings) by (simpl; lra).
  assert (Hn : (0 <= seventy_days)%Z) by (vm_compute; discriminate).
  split; [exact Hr | split; [exact Hn |]].
  apply (X2_confidence_monotone_in_time default_settings 0%Z seventy_days
           0.5 0 (Some 0%Z) None Hr Hn).
Defined.



(** X4. A rule reinforced at least twice is not archived for decay, however
    long it has been unused, when the archive threshold is at most the
    default 0.2: the decay penalty is capped at 0.4, which leaves the
    recomputed confidence above the threshold. *)
Theorem X4_reinforced_twice_never_archived (s : Settings) (now : datetime)
    (n : Z) (la lr : option datetime) :
  (2 <= n)%Z ->
  archive_threshold s <= 0.2 ->
  should_archive_rule s (calculate_confidence s now 0.5 n la lr) = false.
Proof.
  intros Hn Hthr. unfold should_archive_rule. apply Rltb_false.
  apply IZR_le in Hn.
  unfold calculate_confidence.
  destruct la as [t |].
  - set (w := IZR (Py.days (now - t) / 7)%Z * decay_rate s).
    unfold Py.max, Py.min. cmp_cases; lra.
  - unfold Py.max, Py.min. cmp_cases; lra.
Qed.

Lemma X4_reinforced_twice_never_archived_witness :
  (2 <= 2)%Z /\ archive_threshold default_settings <= 0.2
  /\ should_archive_rule default_settings
       (calculate_confidence default_settings seventy_days 0.5 2
          (Some 0%Z) None) = false.
Proof.
  assert (Hn : (2 <= 2)%Z) by lia.
  assert (Ht : archive_threshold default_settings <= 0.2) by (simpl; lra).
  split; [exact Hn | split; [exact Ht |]].
  apply (X4_reinforced_twice_never_archived default_settings seventy_days 2
           (Some 0%Z) None Hn Ht).
Defined.

(** X5. A rule that was never applied does not decay: without
    [last_applied_at] the confidence does not depend on the time, and from
    the base 0.5 with a non-negative number of reinforcements it is at
    least 0.5. *)
Theorem X5_never_applied_never_decays (s : Settings) (now now' : datetime)
    (base : R) (n : Z) (lr lr' : option datetime) :
  (0 <= n)%Z ->
  calculate_confidence s now base n None lr
  = calculate_confidence s now' base n None lr'
  /\ 0.5 <= calculate_confidence s now 0.5 n None lr.
Proof.
  intros Hn. split; [reflexivity |].
  apply IZR_le in Hn. unfold calculate_confidence, Py.max, Py.min.
  cmp_cases; lra.
Qed.

Lemma X5_never_applied_never_decays_witness :
  (0 <= 0)%Z
  /\ 0.5 <= calculate_confidence default_settings seventy_days 0.5 0 None None.
Proof.
  split; [lia |].
  apply (X5_never_applied_never_decays default_settings seventy_days 0%Z
           0.5 0 None None). lia.
Defined.

(** X6. With the default settings, a rule never reinforced and last applied
    49 days ago or more has a recomputed confidence of at most 0.15, below
    the archive threshold: the sweep archives it. *)
Theorem X6_unused_seven_weeks_archived (now t : datetime) (lr : option datetime) :
  (49 * microseconds_per_day <= now - t)%Z ->
  calculate_confidence default_settings now 0.5 0 (Some t) lr <= 0.15
  /\ should_archive_rule default_settings
       (calculate_confidence default_settings now 0.5 0 (Some t) lr) = true.
Proof.
  intros Hold.
  assert (Hw : (7 <= Py.days (now - t) / 7)%Z).
  { apply Z.div_le_lower_bound; [lia |]. unfold Py.days.
    apply Z.div_le_lower_bound; unfold microseconds_per_day in *; lia. }
  apply IZR_le in Hw.
  assert (Hc : calculate_confidence default_settings now 0.5 0 (Some t) lr
               <= 0.15).
  { unfold calculate_confidence. simpl decay_rate.
    unfold Py.max, Py.min. cmp_cases; lra. }
  split; [exact Hc |].
  unfold should_archive_rule. apply Rltb_true. simpl. lra.
Qed.

Lemma X6_unused_seven_weeks_archived_witness :
  (49 * microseconds_per_day <= seventy_days - 0)%Z
  /\ should_archive_rule default_settings
       (calculate_confidence default_settings seventy_days 0.5 0
          (Some 0%Z) None) = true.
Proof.
  assert (H : (49 * microseconds_per_day <= seventy_days - 0)%Z)
    by (vm_compute; discriminate).
  split; [exact H |].
  apply (X6_unused_seven_weeks_archived seventy_days 0%Z None H).
Defined.

(** ** Cosine similarity, further *)

Lemma dot_comm (a : list R) : forall b, dot a b = dot b a.
Proof.
  induction a as [|x a IH]; intros [|y b]; simpl; try reflexivity.
  rewrite IH. ring.
Qed.

(** X7. [cosine_similarity] is symmetric: swapping the two vectors gives
    the same value, or the same [ValueError]. *)
Theorem X7_cosine_similarity_symmetric (a b : list R) :
  cosine_similarity a b = cosine_similarity b a.
Proof.
  unfold cosine_similarity, np_dot.
  rewrite (Nat.eqb_sym (List.length a) (List.length b)).
  destruct (Nat.eqb (List.length b) (List.length a)); [| reflexivity].
  simpl. rewrite (dot_comm a b), orb_comm.
  rewrite (Rmult_comm (np_linalg_norm a) (np_linalg_norm b)). reflexivity.
Qed.

(** ** Duplicate detection, further *)

Lemma find_similar_loop_filter (emb : list R) (thr : R)
    (rules : list RuleDict.t) :
  find_similar_loop emb thr rules
  = find_similar_loop emb thr (filter embedded rules).
Proof.
  induction rules as [|rule rest IH]; simpl; [reflexivity |].
  fold (embedded rule). destruct (embedded rule) eqn:He; simpl.
  - fold (embedded rule). rewrite He.
    destruct (cosine_similarity emb (truthy_value (RuleDict.embedding rule)))
      as [x | e]; simpl; [| reflexivity].
    destruct (Rleb thr x); [reflexivity | exact IH].
  - exact IH.
Qed.

(** X10. [find_similar_rule] answers as if the rules without an embedding
    were not in the list, for every threshold and also when it raises; in
    particular it returns [None], and does not raise, when no rule carries
    an embedding (the empty list included). *)
Theorem X10_find_similar_rule_skips_unembedded (s : Settings) (emb : list R)
    (rules : list RuleDict.t) (threshold : option R) :
  find_similar_rule s emb rules threshold
  = find_similar_rule s emb (filter embedded rules) threshold
  /\ (Forall (fun rule => embedded rule = false) rules ->
      find_similar_rule s emb rules threshold = Ok None).
Proof.
  unfold find_similar_rule. split.
  - apply find_similar_loop_filter.
  - intros Hnone. rewrite find_similar_loop_filter.
    replace (filter embedded rules) with (@nil RuleDict.t); [reflexivity |].
    symmetry. induction Hnone as [|rule rest He _ IH]; simpl;
      [reflexivity | rewrite He; exact IH].
Qed.

Lemma X10_find_similar_rule_skips_unembedded_witness :
  Forall (fun rule => embedded rule = false) [rule_a; rule_b]
  /\ find_similar_rule default_settings [1; 0] [rule_a; rule_b] None = Ok None.
Proof.
  assert (H : Forall (fun rule => embedded rule = false) [rule_a; rule_b])
    by (repeat constructor).
  split; [exact H |].
  apply (X10_find_similar_rule_skips_unembedded default_settings [1; 0]
           [rule_a; rule_b] None). exact H.
Defined.

(** ** Ranking and selection, further *)

Lemma relevance_unembedded (ctx : option (list R)) (rule : RuleDict.t) :
  embedded rule = false -> relevance ctx rule = relevance None rule.
Proof.
  intros He. unfold relevance. fold (embedded rule). rewrite He.
  rewrite andb_false_r. reflexivity.
Qed.

Lemma for_each_rank_body_unembedded (s : Settings) (now : datetime)
    (ctx : option (list R)) (rules : list RuleDict.t) :
  Forall (fun rule => embedded rule = false) rules ->
  forall acc,
    for_each (rank_body s now ctx) rules acc
    = for_each (rank_body s now None) rules acc.
Proof.
  induction 1 as [|rule rest He _ IH]; intros acc; simpl; [reflexivity |].
  unfold rank_body at 1 3. rewrite (relevance_unembedded ctx rule He).
  destruct (relevance None rule) as [rel | e]; simpl; [| reflexivity].
  destruct (Rleb _ _); simpl; apply IH.
Qed.

(** X12. When no rule carries an embedding, as for the dicts of
    [Rule.to_dict()], the context embedding has no effect on [rank_rules],
    which then does not raise: the ranking is by
    [confidence * recency_boost] alone. *)
Theorem X12_rank_rules_ignores_context (s : Settings) (now : datetime)
    (rules : list RuleDict.t) (ctx : option (list R)) (max_rules : Z) :
  Forall (fun rule => embedded rule = false) rules ->
  rank_rules s now rules ctx max_rules = rank_rules s now rules None max_rules
  /\ exists ranked, rank_rules s now rules ctx max_rules = Ok ranked.
Proof.
  intros Hnone.
  assert (E : rank_rules s now rules ctx max_rules
              = rank_rules s now rules None max_rules).
  { unfold rank_rules.
    rewrite (for_each_rank_body_unembedded s now ctx rules Hnone).
    reflexivity. }
  split; [exact E |]. rewrite E. unfold rank_rules.
  rewrite (for_each_rank_body s now None rules I []). simpl.
  eexists. reflexivity.
Qed.

Lemma X12_rank_rules_ignores_context_witness :
  Forall (fun rule => embedded rule = false) [rule_a; rule_b]
  /\ rank_rules default_settings 0%Z [rule_a; rule_b] (Some [1; 0]) 10
     = rank_rules default_settings 0%Z [rule_a; rule_b] None 10.
Proof.
  assert (H : Forall (fun rule => embedded rule = false) [rule_a; rule_b])
    by (repeat constructor).
  split; [exact H |].
  apply (X12_rank_rules_ignores_context default_settings 0%Z
           [rule_a; rule_b] (Some [1; 0]) 10 H).
Defined.

Lemma select_loop_extends (max_tokens : Z) (ranked : list (RuleDict.t * R)) :
  forall selected est,
    exists taken rest,
      select_loop max_tokens ranked selected est = selected ++ taken
      /\ map fst ranked = taken ++ rest.
Proof.
  induction ranked as [|[rule sc] ranked IH]; intros selected est; simpl.
  - exists [], []. rewrite app_nil_r. auto.
  - destruct (max_tokens <? est + rule_tokens rule)%Z.
    + exists [], (rule :: map fst ranked). rewrite app_nil_r. auto.
    + destruct (IH (selected ++ [rule]) (est + rule_tokens rule)%Z)
        as [taken [rest [Hsel Hmap]]].
      exists (rule :: taken), rest. rewrite Hsel, <- app_assoc. simpl.
      rewrite Hmap. auto.
Qed.

Lemma In_firstn {A : Type} (n : nat) (l : list A) (x : A) :
  In x (firstn n l) -> In x l.
Proof.
  intros H. rewrite <- (firstn_skipn n l). apply in_or_app. left. exact H.
Qed.

Lemma rank_rules_members (s : Settings) (now : datetime)
    (rules : list RuleDict.t) (ctx : option (list R)) (max_rules : Z)
    (ranked : list (RuleDict.t * R)) :
  (0 <= max_rules)%Z ->
  rank_rules s now rules ctx max_rules = Ok ranked ->
  (List.length ranked <= Z.to_nat max_rules)%nat
  /\ forall rule, In rule (map fst ranked) ->
       In rule rules
       /\ confidence_threshold s <= dict_get (RuleDict.confidence rule) 0.5.
Proof.
  intros Hmax. unfold rank_rules.
  destruct (for_each _ rules []) as [out | e] eqn:Eloop; simpl; [| discriminate].
  intros H. injection H as <-.
  destruct (for_each_rank_body_inv s now ctx rules [] out Eloop)
    as [scored [-> [Hmap _]]].
  simpl. rewrite slice_to_nonneg by exact Hmax. split.
  - apply firstn_le_length.
  - intros rule Hin. rewrite in_map_iff in Hin.
    destruct Hin as [p [<- Hp]]. apply In_firstn in Hp.
    apply (Permutation_in _ (sort_desc_perm scored)) in Hp.
    assert (Hf : In (fst p) (filter (eligible s) rules))
      by (rewrite <- Hmap; apply in_map; exact Hp).
    apply filter_In in Hf. destruct Hf as [Hin He].
    split; [exact Hin |]. apply Rleb_true. exact He.
Qed.

(** X13. Whatever the budget, [select_rules_for_prompt] returns at most 10
    rules, each of them one of the rules it was given and of confidence at
    or above [confidence_threshold]. *)
Theorem X13_selected_rules_are_eligible_inputs (s : Settings) (now : datetime)
    (rules : list RuleDict.t) (ctx : option (list R)) (max_tokens : Z)
    (selected : list RuleDict.t) :
  select_rules_for_prompt s now rules ctx max_tokens = Ok selected ->
  (List.length selected <= 10)%nat
  /\ forall rule, In rule selected ->
       In rule rules
       /\ confidence_threshold s <= dict_get (RuleDict.confidence rule) 0.5.
Proof.
  unfold select_rules_for_prompt.
  destruct (rank_rules s now rules ctx 10) as [ranked | e] eqn:Er; simpl;
    [| discriminate].
  intros H. injection H as <-.
  destruct (rank_rules_members s now rules ctx 10 ranked ltac:(lia) Er)
    as [Hlen Hmem].
  destruct (select_loop_extends max_tokens ranked [] 0%Z)
    as [taken [rest [Hsel Hmap]]].
  simpl in Hsel. rewrite Hsel. split.
  - assert (Hl : List.length (map fst ranked)
                 = (List.length taken + List.length rest)%nat)
      by (rewrite Hmap; apply length_app).
    rewrite length_map in Hl. simpl in Hlen. lia.
  - intros rule Hin. apply Hmem. rewrite Hmap. apply in_or_app. left. exact Hin.
Qed.

Lemma X13_selected_rules_are_eligible_inputs_witness :
  select_rules_for_prompt default_settings 0%Z [rule_bullets] None 500
  = Ok [rule_bullets]
  /\ (List.length [rule_bullets] <= 10)%nat.
Proof.
  split; [apply select_rules_for_prompt_example |].
  apply (X13_selected_rules_are_eligible_inputs default_settings 0%Z
           [rule_bullets] None 500 [rule_bullets]
           select_rules_for_prompt_example).
Defined.

Lemma select_loop_budget_mono (m1 m2 : Z) (ranked : list (RuleDict.t * R)) :
  (m1 <= m2)%Z ->
  forall selected est,
    exists more,
      select_loop m2 ranked selected est
      = select_loop m1 ranked selected est ++ more.
Proof.
  intros Hm. induction ranked as [|[rule sc] ranked IH]; intros selected est;
    simpl.
  - exists []. rewrite app_nil_r. reflexivity.
  - destruct (m1 <? est + rule_tokens rule)%Z eqn:E1.
    + destruct (m2 <? est + rule_tokens rule)%Z eqn:E2.
      * exists []. rewrite app_nil_r. reflexivity.
      * destruct (select_loop_extends m2 ranked (selected ++ [rule])
                    (est + rule_tokens rule)%Z) as [taken [rest [Hsel _]]].
        exists (rule :: taken). rewrite Hsel, <- app_assoc. reflexivity.
    + apply Z.ltb_ge in E1.
      assert (E2 : (m2 <? est + rule_tokens rule)%Z = false)
        by (apply Z.ltb_ge; lia).
      rewrite E2. apply IH.
Qed.

(** X14. A larger budget never loses a rule: what
    [select_rules_for_prompt] returns for [max_tokens] is a prefix of what it
    returns for any larger budget. *)
Theorem X14_selection_monotone_in_budget (s : Settings) (now : datetime)
    (rules : list RuleDict.t) (ctx : option (list R)) (m1 m2 : Z)
    (selected : list RuleDict.t) :
  (m1 <= m2)%Z ->
  select_rules_for_prompt s now rules ctx m1 = Ok selected ->
  exists more,
    select_rules_for_prompt s now rules ctx m2 = Ok (selected ++ more).
Proof.
  intros Hm. unfold select_rules_for_prompt.
  destruct (rank_rules s now rules ctx 10) as [ranked | e]; simpl;
    [| discriminate].
  intros H. injection H as <-.
  destruct (select_loop_budget_mono m1 m2 ranked Hm [] 0%Z) as [more Hmore].
  exists more. rewrite Hmore. reflexivity.
Qed.

Lemma X14_selection_monotone_in_budget_witness :
  (500 <= 800)%Z
  /\ select_rules_for_prompt default_settings 0%Z [rule_bullets] None 500
     = Ok [rule_bullets]
  /\ exists more,
       select_rules_for_prompt default_settings 0%Z [rule_bullets] None 800
       = Ok ([rule_bullets] ++ more).
Proof.
  assert (Hm : (500 <= 800)%Z) by lia.
  split; [exact Hm | split; [apply select_rules_for_prompt_example |]].
  apply (X14_selection_monotone_in_budget default_settings 0%Z [rule_bullets]
           None 500 800 [rule_bullets] Hm select_rules_for_prompt_example).
Defined.

(** ** Merging, further *)

Lemma merge_all_step (rule : RuleDict.t) (l : list (datetime * string))
    (c : datetime * string) :
  merge_all rule (l ++ [c]) = merge_rules (fst c) (merge_all rule l) (snd c).
Proof. unfold merge_all. rewrite fold_left_app. reflexivity. Qed.

(** X15. Merging [k >= 1] corrections into a rule, one after the other,
    leaves it with [k] more reinforcements, the time of the last merge as
    [last_reinforced_at], and the confidence [min(0.95, old + 0.1 * k)]:
    each merge adds 0.1 until the cap. *)
Theorem X15_repeated_merges (existing_rule : RuleDict.t)
    (corrections : list (datetime * string)) (last : datetime * string) :
  let merged := merge_all existing_rule (corrections ++ [last]) in
  let k := Z.of_nat (List.length (corrections ++ [last])) in
  RuleDict.times_reinforced merged
    = Some (dict_get (RuleDict.times_reinforced existing_rule) 0 + k)%Z
  /\ RuleDict.last_reinforced_at merged = Some (fst last)
  /\ RuleDict.confidence merged
     = Some (Rmin 0.95
               (dict_get (RuleDict.confidence existing_rule) 0.5 + 0.1 * IZR k))
  /\ RuleDict.content merged = RuleDict.content existing_rule
  /\ RuleDict.embedding merged = RuleDict.embedding existing_rule.
Proof.
  revert last.
  induction corrections as [|c corrections IH] using rev_ind; intros last.
  - simpl. rewrite <- py_min_Rmin. repeat split. f_equal. f_equal. lra.
  - cbv zeta in *. specialize (IH c).
    destruct IH as [Htr [_ [Hconf [Hcontent Hemb]]]].
    rewrite merge_all_step. simpl.
    rewrite Htr, Hconf, Hcontent, Hemb. simpl.
    rewrite !length_app in *. simpl List.length in *.
    rewrite !Nat2Z.inj_add in *. simpl Z.of_nat in *.
    repeat split.
    + f_equal. lia.
    + f_equal. rewrite !plus_IZR. rewrite <- !py_min_Rmin.
      unfold Py.min. cmp_cases; lra.
Qed.

(** ** The correction pipeline, further *)

Local Open Scope string_scope.

Lemma substring_prefix (n : nat) (p t : string) :
  (n <= String.length p)%nat ->
  substring 0 n (p ++ t) = substring 0 n p.
Proof.
  revert p. induction n as [|n IH]; intros p Hn.
  - destruct p; destruct t; reflexivity.
  - destruct p as [|c p]; simpl in Hn; [lia |].
    simpl. rewrite IH by lia. reflexivity.
Qed.

Lemma extract_rule_some (llm : string -> result json)
    (P : string -> string -> string) (now : datetime)
    (user_correction previous_response : string) (rule : rule_data) :
  extract_rule llm P now user_correction previous_response = Some rule ->
  exists o,
    llm (P (substring 0 1000 previous_response) user_correction)
      = Ok (JObject o)
    /\ j_is_valid o <> Some false
    /\ j_rule o = Some (rd_content rule)
    /\ rd_content rule <> EmptyString
    /\ rd_category rule = dict_get (j_category o) "style"
    /\ rd_original_correction rule = user_correction
    /\ rd_created_at rule = now
    /\ rd_embedding rule = None.
Proof.
  unfold extract_rule.
  destruct (llm _) as [[o |] | e]; simpl; try discriminate.
  destruct (j_is_valid o) as [[|] |] eqn:Ev; simpl; try discriminate;
    destruct (j_rule o) as [[|c content] |] eqn:Er; try discriminate;
    intros H; injection H as <-; exists o; rewrite Ev, Er; simpl;
    repeat split; auto; discriminate.
Qed.

Lemma process_correction_created (s : Settings) (llm : string -> result json)
    (embed : nat -> string -> result (list R)) (P : string -> string -> string)
    (now : datetime) (user_correction previous_response : string)
    (existing_rules : list RuleDict.t) (rule : rule_data) (message : string) :
  process_correction s llm embed P now user_correction previous_response
    existing_rules = rule_created rule message ->
  exists extracted,
    extract_rule llm P now user_correction previous_response = Some extracted
    /\ check_duplicate_rule s embed 0 (rd_content extracted) existing_rules
       = None
    /\ rule = with_embedding extracted
                (match embed 1%nat (rd_content extracted) with
                 | Ok e => Some e
                 | Raise _ => None
                 end)
    /\ message = "Learned preference: " ++ rd_content extracted.
Proof.
  unfold process_correction.
  destruct (extract_rule _ _ _ _ _) as [extracted |] eqn:Hex; [| discriminate].
  destruct (check_duplicate_rule _ _ _ _ _) eqn:Hdup; [discriminate |].
  intros H. injection H as <- <-. exists extracted.
  split; [reflexivity | split; [exact Hdup |]].
  destruct (embed 1%nat (rd_content extracted)); simpl; auto.
Qed.

(** X16. A rule [process_correction] reports as created has a non-empty
    content, the category the service gave or ["style"], the user's
    correction as [original_correction] and the current time as
    [created_at]; its embedding is what the embedding service returned on
    its second call, or absent if that call failed. *)
Theorem X16_created_rule_is_well_formed (s : Settings)
    (llm : string -> result json) (embed : nat -> string -> result (list R))
    (P : string -> string -> string) (now : datetime)
    (user_correction previous_response : string)
    (existing_rules : list RuleDict.t) (rule : rule_data) (message : string) :
  process_correction s llm embed P now user_correction previous_response
    existing_rules = rule_created rule message ->
  rd_content rule <> EmptyString
  /\ rd_original_correction rule = user_correction
  /\ rd_created_at rule = now
  /\ rd_embedding rule
     = match embed 1%nat (rd_content rule) with
       | Ok e => Some e
       | Raise _ => None
       end
  /\ (exists o,
        llm (P (substring 0 1000 previous_response) user_correction)
          = Ok (JObject o)
        /\ j_rule o = Some (rd_content rule)
        /\ rd_category rule = dict_get (j_category o) "style")
  /\ message = "Learned preference: " ++ rd_content rule.
Proof.
  intros H. apply process_correction_created in H.
  destruct H as [extracted [Hex [_ [-> ->]]]].
  apply extract_rule_some in Hex.
  destruct Hex as [o [Hreply [_ [Hrule [Hne [Hcat [Horig [Hnow _]]]]]]]].
  simpl. repeat split; auto.
  exists o. auto.
Qed.

Lemma X16_created_rule_is_well_formed_witness :
  process_correction default_settings llm_bullets embed_down join_template 5%Z
    "no bullets please" "Sure: * a * b" []
  = rule_created
      {| rd_content := "Avoid bullet points";
         rd_category := "formatting";
         rd_reasoning := EmptyString;
         rd_original_correction := "no bullets please";
         rd_created_at := 5%Z;
         rd_embedding := None |}
      "Learned preference: Avoid bullet points"
  /\ "Avoid bullet points" <> EmptyString.
Proof.
  assert (H : process_correction default_settings llm_bullets embed_down
                join_template 5%Z "no bullets please" "Sure: * a * b" []
              = rule_created
                  {| rd_content := "Avoid bullet points";
                     rd_category := "formatting";
                     rd_reasoning := EmptyString;
                     rd_original_correction := "no bullets please";
                     rd_created_at := 5%Z;
                     rd_embedding := None |}
                  "Learned preference: Avoid bullet points")
    by reflexivity.
  split; [exact H |].
  apply (X16_created_rule_is_well_formed _ _ _ _ _ _ _ _ _ _ H).
Defined.

(** X17. The rule [process_correction] reports as a duplicate is one of
    the existing rules, carries an embedding, and has a cosine similarity at
    or above the configured [similarity_threshold] with the embedding the
    service returned for the extracted content. *)
Theorem X17_duplicate_is_a_similar_existing_rule (s : Settings)
    (llm : string -> result json) (embed : nat -> string -> result (list R))
    (P : string -> string -> string) (now : datetime)
    (user_correction previous_response : string)
    (existing_rules : list RuleDict.t) (duplicate : RuleDict.t)
    (message : string) :
  process_correction s llm embed P now user_correction previous_response
    existing_rules = duplicate_found duplicate message ->
  In duplicate existing_rules
  /\ embedded duplicate = true
  /\ exists extracted new_embedding x,
       extract_rule llm P now user_correction previous_response
         = Some extracted
       /\ embed 0%nat (rd_content extracted) = Ok new_embedding
       /\ cosine_similarity new_embedding (embedding_of duplicate) = Ok x
       /\ similarity_threshold s <= x.
Proof.
  unfold process_correction.
  destruct (extract_rule _ _ _ _ _) as [extracted |] eqn:Hex; [| discriminate].
  unfold check_duplicate_rule.
  destruct (embed 0%nat (rd_content extracted)) as [e | err] eqn:He; simpl;
    [| discriminate].
  destruct (find_similar_rule s e existing_rules None) as [[r |] | err] eqn:Hf;
    simpl; try discriminate.
  intros H. injection H as <- _.
  unfold find_similar_rule in Hf. apply find_similar_loop_some in Hf.
  destruct Hf as [Hin [Hemb [x [Hx Hge]]]].
  split; [exact Hin | split; [exact Hemb |]].
  exists extracted, e, x. auto.
Qed.

Lemma process_correction_duplicate_example :
  process_correction default_settings llm_bullets embed_3_4 join_template 5%Z
    "no bullets please" "Sure: * a * b" [rule_a; rule_3_4]
  = duplicate_found rule_3_4
      "This preference already exists and has been reinforced".
Proof.
  unfold process_correction.
  replace (extract_rule llm_bullets join_template 5%Z "no bullets please"
             "Sure: * a * b")
    with (Some {| rd_content := "Avoid bullet points";
                  rd_category := "formatting";
                  rd_reasoning := EmptyString;
                  rd_original_correction := "no bullets please";
                  rd_created_at := 5%Z;
                  rd_embedding := None |}) by reflexivity.
  unfold check_duplicate_rule, embed_3_4, find_similar_rule. simpl.
  change (truthy_value (RuleDict.embedding rule_3_4)) with [3; 4].
  rewrite (cosine_similarity_same_length [3; 4] [3; 4] eq_refl).
  rewrite cosine_self by (exists 3%R; split; [left; reflexivity | lra]).
  simpl.
  replace (Rleb 0.85 1) with true by (symmetry; apply Rleb_true; lra).
  reflexivity.
Qed.

Lemma X17_duplicate_is_a_similar_existing_rule_witness :
  process_correction default_settings llm_bullets embed_3_4 join_template 5%Z
    "no bullets please" "Sure: * a * b" [rule_a; rule_3_4]
  = duplicate_found rule_3_4
      "This preference already exists and has been reinforced"
  /\ In rule_3_4 [rule_a; rule_3_4]
  /\ embedded rule_3_4 = true.
Proof.
  split; [apply process_correction_duplicate_example |].
  destruct (X17_duplicate_is_a_similar_existing_rule _ _ _ _ _ _ _ _ _ _
              process_correction_duplicate_example) as [Hin [Hemb _]].
  split; assumption.
Defined.

(** X18. When no existing rule carries an embedding, as for the dicts of
    [Rule.to_dict()] (the empty list included), [process_correction] never
    reports a duplicate, whatever the services answer. *)
Theorem X18_no_duplicate_without_embeddings (s : Settings)
    (llm : string -> result json) (embed : nat -> string -> result (list R))
    (P : string -> string -> string) (now : datetime)
    (user_correction previous_response : string)
    (existing_rules : list RuleDict.t) (duplicate : RuleDict.t)
    (message : string) :
  Forall (fun rule => embedded rule = false) existing_rules ->
  process_correction s llm embed P now user_correction previous_response
    existing_rules <> duplicate_found duplicate message.
Proof.
  intros Hnone. unfold process_correction.
  destruct (extract_rule _ _ _ _ _) as [extracted |]; [| discriminate].
  unfold check_duplicate_rule.
  destruct (embed 0%nat (rd_content extracted)) as [e | err]; simpl;
    [| discriminate].
  unfold find_similar_rule. rewrite find_similar_loop_none; [discriminate |].
  intros r Hin He. rewrite Forall_forall in Hnone.
  rewrite (Hnone r Hin) in He. discriminate.
Qed.

Lemma X18_no_duplicate_without_embeddings_witness :
  Forall (fun rule => embedded rule = false) [rule_a; rule_b]
  /\ process_correction default_settings llm_bullets embed_3_4 join_template
       5%Z "no bullets please" "Sure: * a * b" [rule_a; rule_b]
     <> duplicate_found rule_a
          "This preference already exists and has been reinforced".
Proof.
  assert (H : Forall (fun rule => embedded rule = false) [rule_a; rule_b])
    by (repeat constructor).
  split; [exact H |].
  apply (X18_no_duplicate_without_embeddings default_settings llm_bullets
           embed_3_4 join_template 5%Z "no bullets please" "Sure: * a * b"
           [rule_a; rule_b] rule_a
           "This preference already exists and has been reinforced" H).
Defined.

(** X19. The pipeline reads the previous response through its first 1000
    characters only: two previous responses that agree on them get the same
    answer from [detect_correction] and from [process_correction]. *)
Theorem X19_previous_response_truncated (s : Settings)
    (llm : string -> result json) (embed : nat -> string -> result (list R))
    (DETECTION EXTRACTION : string -> string -> string) (now : datetime)
    (user_message head tail1 tail2 : string)
    (existing_rules : list RuleDict.t) :
  (1000 <= String.length head)%nat ->
  detect_correction llm DETECTION user_message (head ++ tail1)
  = detect_correction llm DETECTION user_message (head ++ tail2)
  /\ process_correction s llm embed EXTRACTION now user_message
       (head ++ tail1) existing_rules
     = process_correction s llm embed EXTRACTION now user_message
         (head ++ tail2) existing_rules.
Proof.
  intros Hlen.
  unfold detect_correction, process_correction, extract_rule.
  rewrite !(substring_prefix 1000 head) by exact Hlen.
  split; reflexivity.
Qed.

Lemma thousand_chars_length : (1000 <= String.length thousand_chars)%nat.
Proof. apply Nat.leb_le. vm_compute. reflexivity. Qed.

Lemma X19_previous_response_truncated_witness :
  (1000 <= String.length thousand_chars)%nat
  /\ detect_correction llm_down join_template "never do that"
       (thousand_chars ++ "first ending")
     = detect_correction llm_down join_template "never do that"
         (thousand_chars ++ "another ending").
Proof.
  split; [apply thousand_chars_length |].
  apply (X19_previous_response_truncated default_settings llm_down embed_down
           join_template join_template 0%Z "never do that" thousand_chars
           "first ending" "another ending" [] thousand_chars_length).
Defined.

(** X20. [check_rule_relevance] fails open: when the call of the
    evaluation service fails, or its reply is not an object, the rule is
    taken as relevant with confidence 0.5.  It reads the user message
    through its first 500 characters only. *)
Theorem X20_check_rule_relevance_fallback
    (llm : string -> result relevance_json)
    (P : string -> string -> string -> string)
    (rule_content rule_category user_message : string) :
  let reply := llm (P rule_content rule_category (substring 0 500 user_message)) in
  ((exists e, reply = Raise e) \/ reply = Ok ROther ->
   check_rule_relevance llm P rule_content rule_category user_message
   = (true, 0.5%R))
  /\ (forall head tail1 tail2,
        (500 <= String.length head)%nat ->
        check_rule_relevance llm P rule_content rule_category (head ++ tail1)
        = check_rule_relevance llm P rule_content rule_category (head ++ tail2)).
Proof.
  intros reply. split.
  - intros H. unfold check_rule_relevance. fold reply.
    destruct H as [[e ->] | ->]; reflexivity.
  - intros head tail1 tail2 Hlen. unfold check_rule_relevance.
    rewrite !(substring_prefix 500 head) by exact Hlen. reflexivity.
Qed.

Lemma X20_check_rule_relevance_fallback_witness :
  let down : string -> result relevance_json := fun _ => Raise ServiceError in
  let template : string -> string -> string -> string :=
    fun a b c => a ++ b ++ c in
  (exists e, down (template "Avoid bullet points" "formatting"
                     (substring 0 500 "list the steps")) = Raise e)
  /\ check_rule_relevance down template "Avoid bullet points" "formatting"
       "list the steps" = (true, 0.5%R).
Proof.
  intros down template.
  assert (H : exists e, down (template "Avoid bullet points" "formatting"
                                (substring 0 500 "list the steps")) = Raise e)
    by (exists ServiceError; reflexivity).
  split; [exact H |].
  pose proof (X20_check_rule_relevance_fallback down template
                "Avoid bullet points" "formatting" "list the steps") as Hx.
  cbv zeta in Hx. destruct Hx as [Hfall _].
  apply Hfall. left. exact H.
Defined.

Local Close Scope string_scope.

(** ** The decay sweep, further *)

Lemma is_active_true (rule : Rule.t) :
  is_active rule = true <-> Rule.status rule = ACTIVE.
Proof.
  unfold is_active. destruct (Rule.status rule); simpl; split;
    intros; try reflexivity; discriminate.
Qed.

Lemma decay_body_row (s : Settings) (now : datetime) (acc : sweep)
    (rule : Rule.t) :
  fst (decay_body s now acc rule) = sweep_row s now rule.
Proof.
  unfold decay_body, sweep_row, decays, recomputed.
  destruct (Rltb 0.01 _); destruct (should_archive_rule s _); reflexivity.
Qed.

Lemma decay_loop_rows (s : Settings) (now : datetime) (table : list Rule.t) :
  forall acc,
    fst (decay_loop s now table acc)
    = map (fun rule => if is_active rule then sweep_row s now rule else rule)
          table.
Proof.
  induction table as [|rule rest IH]; intros acc; simpl; [reflexivity |].
  fold (is_active rule). destruct (is_active rule).
  - pose proof (decay_body_row s now acc rule) as Hrow.
    destruct (decay_body s now acc rule) as [rule' acc']. simpl in Hrow.
    specialize (IH acc').
    destruct (decay_loop s now rest acc') as [rest' acc'']. simpl in *.
    rewrite Hrow, IH. reflexivity.
  - specialize (IH acc).
    destruct (decay_loop s now rest acc) as [rest' acc']. simpl in *.
    rewrite IH. reflexivity.
Qed.

Lemma process_decay_table (s : Settings) (now : datetime) (table : list Rule.t)
    (audit_log : list AuditLog) (c : cache) :
  out_table (process_decay s now table audit_log c)
  = map (fun rule => if is_active rule then sweep_row s now rule else rule)
        table.
Proof.
  unfold process_decay.
  pose proof (decay_loop_rows s now table sweep_start) as H.
  destruct (decay_loop s now table sweep_start) as [table' acc].
  exact H.
Qed.

Lemma sweep_row_frame (s : Settings) (now : datetime) (rule : Rule.t) :
  let rule' := sweep_row s now rule in
  Rule.id rule' = Rule.id rule
  /\ Rule.user_id rule' = Rule.user_id rule
  /\ Rule.times_reinforced rule' = Rule.times_reinforced rule
  /\ Rule.last_applied_at rule' = Rule.last_applied_at rule
  /\ (Rule.status rule' = Rule.status rule \/ Rule.status rule' = ARCHIVED)
  /\ (Rule.confidence rule' = Rule.confidence rule
      \/ 0.1 <= Rule.confidence rule' <= 0.95).
Proof.
  unfold sweep_row.
  destruct (decays s now rule); destruct (should_archive_rule s _); simpl;
    repeat split; auto; right; apply calculate_confidence_range.
Qed.

(** X21. The sweep rewrites the table row by row, keeping its length and
    order.  A row that is not active comes out as it was.  Every row keeps
    its id, user, reinforcement count and last application; its status is
    unchanged or goes from active to archived (no rule is reactivated); its
    confidence is unchanged or lies in [[0.1, 0.95]]. *)
Theorem X21_sweep_frame (s : Settings) (now : datetime) (table : list Rule.t)
    (audit_log : list AuditLog) (c : cache) :
  Forall2
    (fun rule rule' =>
       Rule.id rule' = Rule.id rule
       /\ Rule.user_id rule' = Rule.user_id rule
       /\ Rule.times_reinforced rule' = Rule.times_reinforced rule
       /\ Rule.last_applied_at rule' = Rule.last_applied_at rule
       /\ (Rule.status rule <> ACTIVE -> rule' = rule)
       /\ (Rule.status rule' = Rule.status rule
           \/ (Rule.status rule = ACTIVE /\ Rule.status rule' = ARCHIVED))
       /\ (Rule.confidence rule' = Rule.confidence rule
           \/ 0.1 <= Rule.confidence rule' <= 0.95))
    table (out_table (process_decay s now table audit_log c)).
Proof.
  rewrite process_decay_table.
  induction table as [|rule rest IH]; simpl; constructor; [| exact IH].
  destruct (is_active rule) eqn:Ea.
  - apply is_active_true in Ea.
    destruct (sweep_row_frame s now rule) as [H1 [H2 [H3 [H4 [H5 H6]]]]].
    repeat split; auto.
    + intros Hn. contradiction.
    + destruct H5 as [H5 | H5]; [left; exact H5 | right; auto].
  - repeat split; auto.
Qed.

(** X22. After a sweep every rule still active is settled: the confidence
    the sweep would recompute for it at that instant is within 0.01 of the
    stored one and is not below the archive threshold. *)
Theorem X22_sweep_settles_active_rules (s : Settings) (now : datetime)
    (table : list Rule.t) (audit_log : list AuditLog) (c : cache)
    (rule' : Rule.t) :
  In rule' (out_table (process_decay s now table audit_log c)) ->
  Rule.status rule' = ACTIVE ->
  Rabs (recomputed s now rule' - Rule.confidence rule') <= 0.01
  /\ archive_threshold s <= recomputed s now rule'.
Proof.
  rewrite process_decay_table. intros Hin Hact.
  apply in_map_iff in Hin. destruct Hin as [rule [Heq Hin]].
  destruct (is_active rule) eqn:Ea.
  - subst rule'. unfold sweep_row in *.
    destruct (should_archive_rule s (recomputed s now rule)) eqn:Earch.
    + destruct (decays s now rule); simpl in Hact; discriminate.
    + unfold should_archive_rule in Earch. apply Rltb_false in Earch.
      destruct (decays s now rule) eqn:Ed; unfold recomputed in *; simpl.
      * split; [| exact Earch].
        match goal with |- Rabs (?x - ?x) <= _ =>
          replace (x - x) with 0 by lra end.
        rewrite Rabs_R0. lra.
      * split; [| exact Earch].
        unfold decays, recomputed, Py.abs in Ed. apply Rltb_false in Ed.
        exact Ed.
  - subst rule'. apply is_active_true in Hact. congruence.
Qed.

Lemma X22_sweep_settles_active_rules_witness :
  let fresh := Rule.set_confidence stale_rule 0.9 0%Z in
  let now := 0%Z in
  In (Rule.set_confidence fresh 0.5 now)
     (out_table (process_decay default_settings now [fresh] [] []))
  /\ archive_threshold default_settings
     <= recomputed default_settings now (Rule.set_confidence fresh 0.5 now).
Proof.
  intros fresh now.
  assert (Hnew : recomputed default_settings now fresh = 0.5).
  { unfold recomputed, calculate_confidence, fresh, now. simpl.
    change (Py.days 0 / 7)%Z with 0%Z.
    unfold Py.max, Py.min. cmp_cases; lra. }
  assert (Hin : In (Rule.set_confidence fresh 0.5 now)
                   (out_table (process_decay default_settings now [fresh] [] []))).
  { rewrite process_decay_table. simpl. left.
    unfold sweep_row. rewrite Hnew.
    replace (decays default_settings now fresh) with true
      by (symmetry; unfold decays; rewrite Hnew; apply Rltb_true;
          unfold Py.abs, Rabs; simpl; destruct (Rcase_abs _); lra).
    replace (should_archive_rule default_settings 0.5) with false
      by (symmetry; apply Rltb_false; simpl; lra).
    reflexivity. }
  split; [exact Hin |].
  apply (X22_sweep_settles_active_rules default_settings now [fresh] [] []
           (Rule.set_confidence fresh 0.5 now) Hin eq_refl).
Defined.

Lemma count_where_cons (f : Rule.t -> bool) (rule : Rule.t)
    (rest : list Rule.t) :
  count_where f (rule :: rest)
  = ((if f rule then 1 else 0) + count_where f rest)%Z.
Proof.
  unfold count_where. simpl. destruct (f rule); simpl List.length; lia.
Qed.

Lemma decay_body_acc (s : Settings) (now : datetime) (acc : sweep)
    (rule : Rule.t) :
  let acc' := snd (decay_body s now acc rule) in
  let d := decays s now rule in
  let a := should_archive_rule s (recomputed s now rule) in
  processed acc' = (processed acc + (if d then 1 else 0))%Z
  /\ archived acc' = (archived acc + (if a then 1 else 0))%Z
  /\ users_affected acc'
     = (if d then set_add (Rule.user_id rule) (users_affected acc)
        else users_affected acc)
  /\ exists events,
       audit acc' = audit acc ++ events
       /\ Z.of_nat (List.length (filter is_decay_event events))
          = (if d then 1 else 0)%Z
       /\ Z.of_nat (List.length (filter is_archive_event events))
          = (if a then 1 else 0)%Z.
Proof.
  unfold decay_body, decays, recomputed.
  destruct (Rltb 0.01 _); destruct (should_archive_rule s _); simpl.
  - repeat split; try lia.
    eexists [_; _]. rewrite <- app_assoc. simpl. auto.
  - repeat split; try lia. eexists [_]. simpl. auto.
  - repeat split; try lia. eexists [_]. simpl. auto.
  - repeat split; try lia. exists []. rewrite app_nil_r. simpl. auto.
Qed.

Lemma set_add_iff (u v : Z) (l : list Z) :
  In v (set_add u l) <-> v = u \/ In v l.
Proof.
  split.
  - unfold set_add. destruct (existsb (Z.eqb u) l); [auto |].
    intros H. apply in_app_or in H. destruct H as [H | [H | []]]; auto.
  - intros [-> | H]; [apply set_add_in | apply set_add_keeps; exact H].
Qed.

Lemma decay_loop_acc (s : Settings) (now : datetime) (table : list Rule.t) :
  forall acc,
    let acc' := snd (decay_loop s now table acc) in
    processed acc' = (processed acc + count_where (will_decay s now) table)%Z
    /\ archived acc'
       = (archived acc + count_where (will_archive s now) table)%Z
    /\ (forall u, In u (users_affected acc') <->
                  In u (users_affected acc)
                  \/ exists rule, In rule table /\ will_decay s now rule = true
                                  /\ Rule.user_id rule = u)
    /\ exists events,
         audit acc' = audit acc ++ events
         /\ Z.of_nat (List.length (filter is_decay_event events))
            = count_where (will_decay s now) table
         /\ Z.of_nat (List.length (filter is_archive_event events))
            = count_where (will_archive s now) table.
Proof.
  induction table as [|rule rest IH]; intros acc; simpl.
  - unfold count_where. simpl. repeat split; try lia.
    + auto.
    + intros [H | [rule [[] _]]]. exact H.
    + exists []. rewrite app_nil_r. auto.
  - rewrite !count_where_cons.
    assert (Hwd : will_decay s now rule = is_active rule && decays s now rule)
      by reflexivity.
    assert (Hwa : will_archive s now rule
                  = is_active rule
                    && should_archive_rule s (recomputed s now rule))
      by reflexivity.
    rewrite Hwd, Hwa. clear Hwd Hwa.
    fold (is_active rule). destruct (is_active rule) eqn:Ea; simpl andb.
    + pose proof (decay_body_acc s now acc rule) as Hb. cbv zeta in Hb.
      destruct (decay_body s now acc rule) as [rule' acc1]. simpl in Hb.
      destruct Hb as [Hp [Ha [Hu [ev1 [Hau [Hd1 Ha1]]]]]].
      specialize (IH acc1). cbv zeta in IH.
      destruct (decay_loop s now rest acc1) as [rest' acc2]. simpl in *.
      destruct IH as [Hp2 [Ha2 [Hu2 [ev2 [Hau2 [Hd2 Ha2']]]]]].
      split; [lia | split; [lia | split]].
      * intros u. rewrite Hu2, Hu. split.
        -- intros [H | [r [Hin [Hw Hr]]]].
           ++ destruct (decays s now rule) eqn:Ed.
              ** apply set_add_iff in H. destruct H as [-> | H]; [| auto].
                 right. exists rule. unfold will_decay. rewrite Ea, Ed. auto.
              ** auto.
           ++ right. exists r. auto.
        -- intros [H | [r [[<- | Hin] [Hw Hr]]]].
           ++ left. destruct (decays s now rule);
                [apply set_add_iff; auto | exact H].
           ++ left. unfold will_decay in Hw. rewrite Ea in Hw. simpl in Hw.
              rewrite Hw. apply set_add_iff. auto.
           ++ right. exists r. auto.
      * exists (ev1 ++ ev2). rewrite Hau2, Hau, app_assoc.
        rewrite !filter_app, !length_app, !Nat2Z.inj_add.
        split; [reflexivity | split; lia].
    + specialize (IH acc). cbv zeta in IH.
      destruct (decay_loop s now rest acc) as [rest' acc1]. simpl in *.
      destruct IH as [Hp2 [Ha2 [Hu2 [ev2 [Hau2 [Hd2 Ha2']]]]]].
      split; [lia | split; [lia | split]].
      * intros u. rewrite Hu2. split.
        -- intros [H | [r [Hin [Hw Hr]]]]; [auto |]. right. exists r. auto.
        -- intros [H | [r [[<- | Hin] [Hw Hr]]]]; [auto | |].
           ++ unfold will_decay in Hw. rewrite Ea in Hw. discriminate.
           ++ right. exists r. auto.
      * exists ev2. auto.
Qed.

Lemma sweep_row_active (s : Settings) (now : datetime) (rule : Rule.t) :
  is_active rule = true ->
  is_active (sweep_row s now rule)
  = negb (should_archive_rule s (recomputed s now rule)).
Proof.
  intros Ha. unfold sweep_row.
  destruct (decays s now rule); destruct (should_archive_rule s _); simpl;
    try reflexivity; exact Ha.
Qed.

Lemma count_active_after (s : Settings) (now : datetime) (table : list Rule.t) :
  count_where is_active table
  = (count_where is_active
       (map (fun rule => if is_active rule then sweep_row s now rule else rule)
            table)
     + count_where (will_archive s now) table)%Z.
Proof.
  induction table as [|rule rest IH]; [reflexivity |].
  simpl map. rewrite !count_where_cons.
  assert (Hwa : will_archive s now rule
                = is_active rule
                  && should_archive_rule s (recomputed s now rule))
    by reflexivity.
  rewrite Hwa. clear Hwa.
  destruct (is_active rule) eqn:Ea.
  - rewrite (sweep_row_active s now rule Ea).
    destruct (should_archive_rule s _); cbn [negb andb]; lia.
  - rewrite Ea. cbn [andb]. lia.
Qed.

(** X23. The counts of a sweep are exact.  [processed] is the number of
    active rules whose recomputed confidence differs from the stored one by
    more than 0.01, and the number of decay events added to the audit log;
    [archived] is the number of active rules whose recomputed confidence is
    below the archive threshold, the number of archive events added, and the
    number of rules that are no longer active afterwards.  The audit log only
    grows, by exactly these events. *)
Theorem X23_sweep_counts (s : Settings) (now : datetime) (table : list Rule.t)
    (audit_log : list AuditLog) (c : cache) :
  let outcome := process_decay s now table audit_log c in
  out_processed outcome = count_where (will_decay s now) table
  /\ out_archived outcome = count_where (will_archive s now) table
  /\ count_where is_active table
     = (count_where is_active (out_table outcome) + out_archived outcome)%Z
  /\ exists events,
       out_audit outcome = audit_log ++ events
       /\ Z.of_nat (List.length (filter is_decay_event events))
          = out_processed outcome
       /\ Z.of_nat (List.length (filter is_archive_event events))
          = out_archived outcome.
Proof.
  intros outcome.
  pose proof (process_decay_table s now table audit_log c) as Htable.
  fold outcome in Htable. unfold outcome, process_decay in *.
  pose proof (decay_loop_acc s now table sweep_start) as Hacc.
  cbv zeta in Hacc.
  destruct (decay_loop s now table sweep_start) as [table' acc].
  simpl in *. destruct Hacc as [Hp [Ha [_ [events [Hau [Hd Har]]]]]].
  split; [lia | split; [lia | split]].
  - rewrite Htable, Ha. apply count_active_after.
  - exists events. rewrite Hau, Hp, Ha. auto.
Qed.

Lemma cached_invalidate_other (c : cache) (u v : Z) :
  u <> v -> cached (invalidate_user_rules c v) u = cached c u.
Proof.
  intros Hne. unfold cached, invalidate_user_rules.
  induction c as [|w c IH]; simpl; [reflexivity |].
  destruct (Z.eqb w v) eqn:E; simpl.
  - apply Z.eqb_eq in E. subst w.
    replace (Z.eqb u v) with false by (symmetry; apply Z.eqb_neq; exact Hne).
    exact IH.
  - rewrite IH. reflexivity.
Qed.

Lemma cached_after_invalidations (users : list Z) :
  forall (c : cache) (u : Z),
    cached (fold_left invalidate_user_rules users c) u = true
    <-> cached c u = true /\ ~ In u users.
Proof.
  induction users as [|v users IH]; intros c u; simpl.
  - tauto.
  - rewrite IH. destruct (Z.eq_dec u v) as [-> | Hne].
    + rewrite invalidate_not_cached. split; [intros [H _]; discriminate |].
      intros [_ H]. exfalso. apply H. auto.
    + rewrite (cached_invalidate_other c u v Hne). split.
      * intros [H1 H2]. split; [exact H1 |]. intros [H | H]; auto.
      * intros [H1 H2]. split; [exact H1 |]. intros H. apply H2. auto.
Qed.

(** X24. What a sweep does to the rule cache: a user's snapshot is still
    cached afterwards exactly when it was cached before and none of the
    user's active rules had its confidence changed (by more than 0.01):
    archiving alone never invalidates, and no snapshot is ever added. *)
Theorem X24_sweep_cache_effect (s : Settings) (now : datetime)
    (table : list Rule.t) (audit_log : list AuditLog) (c : cache) (u : Z) :
  cached (out_cache (process_decay s now table audit_log c)) u = true
  <-> cached c u = true
      /\ forall rule, In rule table -> Rule.status rule = ACTIVE ->
                      Rule.user_id rule = u -> decays s now rule = false.
Proof.
  unfold process_decay.
  pose proof (decay_loop_acc s now table sweep_start) as Hacc.
  cbv zeta in Hacc.
  destruct (decay_loop s now table sweep_start) as [table' acc].
  simpl in *. destruct Hacc as [_ [_ [Hu _]]].
  rewrite cached_after_invalidations, Hu. split.
  - intros [Hc Hnot]. split; [exact Hc |].
    intros rule Hin Hact Huser.
    destruct (decays s now rule) eqn:Ed; [| reflexivity].
    exfalso. apply Hnot. right. exists rule.
    unfold will_decay. apply is_active_true in Hact. rewrite Hact, Ed. auto.
  - intros [Hc Hall]. split; [exact Hc |].
    intros [[] | [rule [Hin [Hw Huser]]]].
    unfold will_decay in Hw. apply andb_true_iff in Hw. destruct Hw as [Ha Hd].
    apply is_active_true in Ha. rewrite (Hall rule Hin Ha Huser) in Hd.
    discriminate.
Qed.

Lemma stale_rule_does_not_decay :
  decays default_settings seventy_days stale_rule = false.
Proof.
  unfold decays, recomputed.
  change (Rule.times_reinforced stale_rule) with 0%Z.
  change (Rule.last_applied_at stale_rule) with (Some 0%Z).
  change (Rule.confidence stale_rule) with 0.1.
  rewrite stale_rule_recomputed. apply Rltb_false. unfold Py.abs.
  replace (0.1 - 0.1) with 0 by lra. rewrite Rabs_R0. lra.
Qed.

Lemma X24_sweep_cache_effect_witness :
  cached (out_cache (process_decay default_settings seventy_days [stale_rule]
                       [] [7%Z])) 7 = true.
Proof.
  apply (X24_sweep_cache_effect default_settings seventy_days [stale_rule]
           [] [7%Z] 7).
  split; [reflexivity |].
  intros rule [<- | []] _ _. apply stale_rule_does_not_decay.
Defined.

Lemma map_status_unchanged (s : Settings) (now : datetime)
    (table : list Rule.t) :
  (forall rule, should_archive_rule s (recomputed s now rule) = false) ->
  map Rule.status
      (map (fun rule => if is_active rule then sweep_row s now rule else rule)
           table)
  = map Rule.status table.
Proof.
  intros Hno. induction table as [|rule rest IH]; simpl; [reflexivity |].
  rewrite IH. f_equal. destruct (is_active rule); [| reflexivity].
  unfold sweep_row. rewrite Hno. destruct (decays s now rule); reflexivity.
Qed.

(** X25. With the archive threshold at or below the confidence floor 0.1
    the sweep archives nothing: [archived] is 0 and every rule keeps its
    status, whatever the table and the instant. *)
Theorem X25_floor_threshold_archives_nothing (s : Settings) (now : datetime)
    (table : list Rule.t) (audit_log : list AuditLog) (c : cache) :
  archive_threshold s <= 0.1 ->
  out_archived (process_decay s now table audit_log c) = 0%Z
  /\ map Rule.status (out_table (process_decay s now table audit_log c))
     = map Rule.status table.
Proof.
  intros Hthr.
  assert (Hno : forall rule,
             should_archive_rule s (recomputed s now rule) = false).
  { intros rule. unfold should_archive_rule. apply Rltb_false.
    pose proof (calculate_confidence_range s now 0.5
                  (Rule.times_reinforced rule) (Rule.last_applied_at rule) None).
    unfold recomputed. lra. }
  split.
  - pose proof (decay_loop_acc s now table sweep_start) as Hacc.
    cbv zeta in Hacc. unfold process_decay.
    destruct (decay_loop s now table sweep_start) as [table' acc].
    simpl in *. destruct Hacc as [_ [Ha _]]. rewrite Ha.
    clear Ha. unfold count_where.
    replace (filter (will_archive s now) table) with (@nil Rule.t);
      [reflexivity |].
    symmetry. induction table as [|rule rest IH]; simpl; [reflexivity |].
    unfold will_archive at 1. rewrite Hno, andb_false_r. exact IH.
  - rewrite process_decay_table. apply map_status_unchanged. exact Hno.
Qed.

Lemma X25_floor_threshold_archives_nothing_witness :
  archive_threshold floor_settings <= 0.1
  /\ out_archived (process_decay floor_settings seventy_days [stale_rule] []
                     [7%Z]) = 0%Z.
Proof.
  assert (H : archive_threshold floor_settings <= 0.1) by (simpl; lra).
  split; [exact H |].
  apply (X25_floor_threshold_archives_nothing floor_settings seventy_days
           [stale_rule] [] [7%Z] H).
Defined.

(** ** The rules section of the system prompt *)

Lemma option_string_eqb_eq (a b : option string) :
  option_string_eqb a b = true <-> a = b.
Proof.
  destruct a as [x |], b as [y |]; simpl; try (split; congruence).
  rewrite String.eqb_eq. split; congruence.
Qed.

Lemma option_string_eqb_refl (a : option string) : option_string_eqb a a = true.
Proof. apply option_string_eqb_eq. reflexivity. Qed.

Lemma option_string_eqb_sym (a b : option string) :
  option_string_eqb a b = option_string_eqb b a.
Proof.
  destruct (option_string_eqb a b) eqn:E.
  - apply option_string_eqb_eq in E. subst.
    symmetry. apply option_string_eqb_refl.
  - destruct (option_string_eqb b a) eqn:E'; [| reflexivity].
    apply option_string_eqb_eq in E'. subst.
    rewrite option_string_eqb_refl in E. discriminate.
Qed.

Lemma seen_In (k : option string) (l : list (option string)) :
  seen k l = true <-> In k l.
Proof.
  unfold seen. rewrite existsb_exists. split.
  - intros [x [Hin E]]. apply option_string_eqb_eq in E. subst. exact Hin.
  - intros Hin. exists k. split; [exact Hin | apply option_string_eqb_refl].
Qed.

Lemma seen_false_In (k : option string) (l : list (option string)) :
  seen k l = false <-> ~ In k l.
Proof.
  rewrite <- seen_In. destruct (seen k l); split; congruence.
Qed.

Lemma first_seen_In (k : option string) (l : list (option string)) :
  In k (first_seen l) <-> In k l.
Proof.
  induction l as [| x l IH]; simpl; [tauto |].
  rewrite filter_In, IH. split.
  - intros [H | [H _]]; auto.
  - intros [H | H]; [auto |].
    destruct (option_string_eqb k x) eqn:E.
    + apply option_string_eqb_eq in E. subst. auto.
    + right. split; [exact H | reflexivity].
Qed.

Lemma first_seen_NoDup (l : list (option string)) : NoDup (first_seen l).
Proof.
  induction l as [| x l IH]; simpl; constructor.
  - rewrite filter_In. intros [_ H].
    rewrite option_string_eqb_refl in H. discriminate.
  - apply NoDup_filter. exact IH.
Qed.

Lemma seen_first_seen (k : option string) (l : list (option string)) :
  seen k (first_seen l) = seen k l.
Proof.
  destruct (seen k l) eqn:E.
  - apply seen_In. apply first_seen_In. apply seen_In. exact E.
  - apply seen_false_In. rewrite first_seen_In. apply seen_false_In. exact E.
Qed.

Lemma filter_all {A : Type} (p : A -> bool) (l : list A) :
  (forall x, In x l -> p x = true) -> filter p l = l.
Proof.
  induction l as [| x l IH]; simpl; intros H; [reflexivity |].
  rewrite (H x) by auto. f_equal. apply IH. intros y Hy. apply H. auto.
Qed.

Lemma first_seen_snoc (l : list (option string)) (k : option string) :
  first_seen (l ++ [k]) =
  if seen k l then first_seen l else first_seen l ++ [k].
Proof.
  induction l as [| x l IH]; [reflexivity |].
  change (first_seen ((x :: l) ++ [k]))
    with (x :: filter (fun y => negb (option_string_eqb y x))
                 (first_seen (l ++ [k]))).
  rewrite IH. unfold seen. simpl existsb. fold (seen k l).
  destruct (option_string_eqb k x) eqn:E; simpl orb.
  - destruct (seen k l); [reflexivity |].
    rewrite filter_app. simpl. rewrite E. simpl. rewrite app_nil_r.
    reflexivity.
  - destruct (seen k l); [reflexivity |].
    rewrite filter_app. simpl. rewrite E. reflexivity.
Qed.

Lemma contents_of_snoc (k : option string) (rules : list RuleDict.t)
  (r : RuleDict.t) :
  contents_of k (rules ++ [r]) =
  contents_of k rules
  ++ (if option_string_eqb (RuleDict.category r) k then [RuleDict.content r]
      else []).
Proof.
  unfold contents_of. rewrite filter_app, map_app. simpl.
  destruct (option_string_eqb (RuleDict.category r) k); reflexivity.
Qed.

Lemma contents_of_unseen (k : option string) (rules : list RuleDict.t) :
  seen k (map RuleDict.category rules) = false -> contents_of k rules = [].
Proof.
  unfold contents_of. induction rules as [| r rules IH]; simpl;
    [reflexivity |].
  rewrite (option_string_eqb_sym (RuleDict.category r) k).
  destruct (option_string_eqb k (RuleDict.category r)); simpl;
    [discriminate | exact IH].
Qed.

(** Appending to a dict given by its keys and a function of the key. *)
Lemma categorized_append_map (f : option string -> list (option string))
  (ks : list (option string)) (k v : option string) :
  NoDup ks ->
  categorized_append (map (fun k' => (k', f k')) ks) k v =
  if seen k ks then
    map (fun k' => (k', if option_string_eqb k' k then f k' ++ [v] else f k'))
      ks
  else map (fun k' => (k', f k')) ks ++ [(k, [v])].
Proof.
  induction ks as [| x ks IH]; intros Hnd; [reflexivity |].
  inversion Hnd as [| ? ? Hx Hnd']; subst.
  simpl. rewrite (option_string_eqb_sym k x).
  destruct (option_string_eqb x k) eqn:E; simpl.
  - f_equal. apply map_ext_in. intros k' Hk'.
    destruct (option_string_eqb k' k) eqn:E'; [| reflexivity].
    apply option_string_eqb_eq in E, E'. subst. contradiction.
  - rewrite (IH Hnd'). destruct (seen k ks); reflexivity.
Qed.

(** The dict [build_rules_section] builds: one entry per category, in order
    of first appearance, holding the contents of that category's rules in
    input order. *)
Lemma categorize_spec (rules : list RuleDict.t) :
  categorize rules =
  map (fun k => (k, contents_of k rules))
    (first_seen (map RuleDict.category rules)).
Proof.
  unfold categorize.
  induction rules as [| r rules IH] using rev_ind; [reflexivity |].
  rewrite fold_left_app. simpl. rewrite IH.
  rewrite categorized_append_map by apply first_seen_NoDup.
  rewrite map_app. simpl map. rewrite first_seen_snoc.
  rewrite seen_first_seen.
  destruct (seen (RuleDict.category r) (map RuleDict.category rules)) eqn:E.
  - apply map_ext. intros k'. rewrite contents_of_snoc.
    rewrite (option_string_eqb_sym (RuleDict.category r) k').
    destruct (option_string_eqb k' (RuleDict.category r));
      [reflexivity | rewrite app_nil_r; reflexivity].
  - rewrite map_app. simpl. f_equal.
    + apply map_ext_in. intros k' Hk'. rewrite contents_of_snoc.
      destruct (option_string_eqb (RuleDict.category r) k') eqn:E'.
      * apply option_string_eqb_eq in E'. subst k'.
        apply (proj1 (first_seen_In _ _)) in Hk'.
        apply (proj2 (seen_In _ _)) in Hk'.
        rewrite E in Hk'. discriminate.
      * rewrite app_nil_r. reflexivity.
    + rewrite contents_of_snoc, option_string_eqb_refl.
      rewrite (contents_of_unseen _ _ E). reflexivity.
Qed.

Lemma categorized_get_map (f : option string -> list (option string))
  (ks : list (option string)) (k : option string) :
  categorized_get (map (fun k' => (k', f k')) ks) k =
  if seen k ks then Some (f k) else None.
Proof.
  induction ks as [| x ks IH]; [reflexivity |].
  simpl. rewrite (option_string_eqb_sym k x).
  destruct (option_string_eqb x k) eqn:E; simpl.
  - apply option_string_eqb_eq in E. subst. reflexivity.
  - exact IH.
Qed.

Lemma flat_map_if {A B : Type} (p : A -> bool) (g : A -> B) (l : list A) :
  flat_map (fun a => if p a then [g a] else []) l = map g (filter p l).
Proof.
  induction l as [| a l IH]; simpl; [reflexivity |].
  rewrite IH. destruct (p a); reflexivity.
Qed.

Lemma seen_categories (rules : list RuleDict.t) (k : option string) :
  seen k (map RuleDict.category rules) =
  existsb (fun r => option_string_eqb (RuleDict.category r) k) rules.
Proof.
  unfold seen. induction rules as [| r rules IH]; simpl; [reflexivity |].
  rewrite IH, (option_string_eqb_sym k). reflexivity.
Qed.

Lemma ordered_sections_spec (rules : list RuleDict.t) :
  ordered_sections (categorize rules) =
  map (section_of rules) (known_categories rules).
Proof.
  unfold ordered_sections, known_categories. rewrite categorize_spec.
  rewrite <- flat_map_if. apply flat_map_ext. intros c.
  rewrite categorized_get_map, seen_first_seen, seen_categories.
  unfold has_category, section_of.
  destruct (existsb _ rules); reflexivity.
Qed.

Lemma remaining_sections_map (f : option string -> list (option string))
  (ks : list (option string)) :
  remaining_sections (map (fun k => (k, f k)) ks) =
  if seen None ks then Raises AttributeError
  else Returns (map (fun c => format_section c (f (Some c)))
                  (flat_map other_category ks)).
Proof.
  induction ks as [| [c |] ks IH]; [reflexivity | |].
  - simpl. rewrite IH. unfold seen. simpl.
    fold (seen None ks).
    destruct (in_category_order c), (seen None ks); reflexivity.
  - reflexivity.
Qed.

Lemma remaining_sections_spec (rules : list RuleDict.t) :
  remaining_sections (categorize rules) =
  if lacks_category rules then Raises AttributeError
  else Returns (map (section_of rules) (other_categories rules)).
Proof.
  rewrite categorize_spec, remaining_sections_map.
  rewrite seen_first_seen, seen_categories.
  reflexivity.
Qed.

(** X26. The rules section.  For no rules it is the sentence
    [No specific preferences to apply.]  Otherwise a rule without category
    makes [build_rules_section] raise [AttributeError]; and when every rule
    has one, the section has one block per category present: first those of
    the fixed precedence safety, logic, formatting, style, tone, in this
    order, then the other categories in order of first appearance; each
    block lists the contents of all the rules of its category, in input
    order, whatever the order in which the categories alternate in the
    input. *)
Theorem X26_build_rules_section_grouping (rules : list RuleDict.t) :
  build_rules_section rules =
  match rules with
  | [] => Returns "No specific preferences to apply."%string
  | _ :: _ =>
      if lacks_category rules then Raises AttributeError
      else Returns (join (newline ++ newline)
                      (map (section_of rules)
                         (known_categories rules ++ other_categories rules)))
  end.
Proof.
  destruct rules as [| r rules]; [reflexivity |].
  unfold build_rules_section.
  cbv zeta. rewrite remaining_sections_spec, ordered_sections_spec.
  destruct (lacks_category (r :: rules)); [reflexivity |].
  simpl attempt_bind. rewrite map_app. reflexivity.
Qed.

(** ** Truncation of the chat prompt *)

Lemma message_tokens_nonneg (m : Message.t) : (0 <= message_tokens m)%Z.
Proof. unfold message_tokens. apply Z.div_pos; lia. Qed.

Lemma sum_tokens_nonneg (l : list Message.t) : (0 <= sum_tokens l)%Z.
Proof.
  induction l as [| m l IH]; simpl; [lia |].
  pose proof (message_tokens_nonneg m). lia.
Qed.

Lemma sum_tokens_app (l1 l2 : list Message.t) :
  sum_tokens (l1 ++ l2) = (sum_tokens l1 + sum_tokens l2)%Z.
Proof. induction l1 as [| m l1 IH]; simpl; [reflexivity | lia]. Qed.

Lemma sum_tokens_rev (l : list Message.t) : sum_tokens (rev l) = sum_tokens l.
Proof.
  induction l as [| m l IH]; simpl; [reflexivity |].
  rewrite sum_tokens_app, IH. simpl. lia.
Qed.

Lemma estimate_tokens_one (m : Message.t) :
  estimate_tokens [m] = message_tokens m.
Proof.
  unfold estimate_tokens, message_tokens. simpl. rewrite Z.add_0_r.
  reflexivity.
Qed.

(** What the loop takes: a prefix of the reversed messages, stopping at the
    first one that does not fit. *)
Lemma truncate_loop_spec (max_tokens : Z) (reversed_messages : list Message.t) :
  forall (kept : list Message.t) (current_tokens : Z),
  exists taken rest,
    reversed_messages = taken ++ rest
    /\ truncate_loop max_tokens reversed_messages kept current_tokens =
       rev taken ++ kept
    /\ (taken <> [] -> (current_tokens + sum_tokens taken <= max_tokens)%Z)
    /\ (forall m rest', rest = m :: rest' ->
        (max_tokens < current_tokens + sum_tokens taken + message_tokens m)%Z).
Proof.
  induction reversed_messages as [| msg rs IH]; intros kept c.
  - exists [], []. repeat split; try reflexivity.
    + intros H. contradiction.
    + intros m rest' H. discriminate.
  - simpl. destruct (max_tokens <? c + message_tokens msg)%Z eqn:E.
    + exists [], (msg :: rs). repeat split; try reflexivity.
      * intros H. contradiction.
      * intros m rest' H. injection H as <- <-. simpl.
        apply Z.ltb_lt in E. lia.
    + destruct (IH (msg :: kept) (c + message_tokens msg)%Z)
        as [taken [rest [Hrs [Hout [Hfit Hmax]]]]].
      exists (msg :: taken), rest. split; [| split; [| split]].
      * simpl. rewrite Hrs. reflexivity.
      * rewrite Hout. simpl. rewrite <- app_assoc. reflexivity.
      * intros _. simpl. apply Z.ltb_ge in E.
        destruct taken as [| m' taken'].
        -- simpl. lia.
        -- assert (m' :: taken' <> []) as Hne by discriminate.
           specialize (Hfit Hne). lia.
      * intros m rest' Hrest. specialize (Hmax m rest' Hrest).
        simpl. lia.
Qed.

(** Messages that fit together are all taken. *)
Lemma truncate_loop_fits (max_tokens : Z) (taken : list Message.t) :
  forall (kept : list Message.t) (current_tokens : Z),
  (current_tokens + sum_tokens taken <= max_tokens)%Z ->
  truncate_loop max_tokens taken kept current_tokens = rev taken ++ kept.
Proof.
  induction taken as [| m taken IH]; intros kept c Hfit; [reflexivity |].
  simpl in *. pose proof (sum_tokens_nonneg taken).
  pose proof (message_tokens_nonneg m).
  destruct (max_tokens <? c + message_tokens m)%Z eqn:E.
  - apply Z.ltb_lt in E. lia.
  - rewrite IH by lia. rewrite <- app_assoc. reflexivity.
Qed.

Lemma total_chars_bound (l : list Message.t) :
  (total_chars l <= 4 * sum_tokens l + 3 * Z.of_nat (List.length l))%Z.
Proof.
  induction l as [| m l IH]; [simpl; lia |].
  change (total_chars (m :: l))
    with (Z.of_nat (String.length (Py.dict_get (Message.content m) EmptyString))
          + total_chars l)%Z.
  change (sum_tokens (m :: l)) with (message_tokens m + sum_tokens l)%Z.
  change (List.length (m :: l)) with (S (List.length l)).
  unfold message_tokens.
  set (n := Z.of_nat (String.length (Py.dict_get (Message.content m) EmptyString))).
  pose proof (Z.div_mod n 4 ltac:(lia)).
  pose proof (Z.mod_pos_bound n 4 ltac:(lia)).
  lia.
Qed.

Lemma estimate_tokens_le (l : list Message.t) :
  (4 * estimate_tokens l <= total_chars l)%Z.
Proof.
  unfold estimate_tokens.
  pose proof (Z.div_mod (total_chars l) 4 ltac:(lia)).
  pose proof (Z.mod_pos_bound (total_chars l) 4 ltac:(lia)).
  lia.
Qed.

Lemma estimate_system_part (messages : list Message.t) :
  estimate_tokens (system_part messages) = sum_tokens (system_part messages).
Proof.
  destruct messages as [| first others]; [reflexivity |].
  simpl. destruct (is_system first); [| reflexivity].
  rewrite estimate_tokens_one. simpl. lia.
Qed.

(** The shape of what [truncate_for_context] returns, from the loop. *)
Lemma truncate_for_context_shape (messages : list Message.t) (max_tokens : Z) :
  (forall first others, messages = first :: others -> has_role first) ->
  exists dropped kept,
    messages = system_part messages ++ dropped ++ kept
    /\ truncate_for_context messages max_tokens =
       Returns (system_part messages ++ kept)
    /\ (kept <> [] ->
        (estimate_tokens (system_part messages) + sum_tokens kept
         <= max_tokens)%Z)
    /\ (forall dropped' m, dropped = dropped' ++ [m] ->
        (max_tokens <
         estimate_tokens (system_part messages) + sum_tokens kept
         + message_tokens m)%Z).
Proof.
  intros Hrole. destruct messages as [| first others].
  - exists [], []. repeat split; try reflexivity.
    + intros H. contradiction.
    + intros d m H. destruct d; discriminate.
  - specialize (Hrole first others eq_refl). unfold has_role in Hrole.
    unfold truncate_for_context, system_part, is_system.
    destruct (Message.role first) as [r |]; [| contradiction].
    destruct (String.eqb r "system").
    + destruct (truncate_loop_spec max_tokens (rev others) []
                  (estimate_tokens [first]))
        as [taken [rest [Hrs [Hout [Hfit Hmax]]]]].
      exists (rev rest), (rev taken). rewrite Hout, app_nil_r.
      rewrite sum_tokens_rev. split; [| split; [| split]].
      * simpl. f_equal. rewrite <- rev_app_distr, <- Hrs, rev_involutive.
        reflexivity.
      * reflexivity.
      * intros Hne. apply Hfit. intros ->. apply Hne. reflexivity.
      * intros d m Hd. apply (Hmax m (rev d)).
        rewrite <- (rev_involutive rest), Hd, rev_app_distr. reflexivity.
    + destruct (truncate_loop_spec max_tokens (rev (first :: others)) []
                  (estimate_tokens []))
        as [taken [rest [Hrs [Hout [Hfit Hmax]]]]].
      exists (rev rest), (rev taken). rewrite Hout, app_nil_r.
      rewrite sum_tokens_rev. split; [| split; [| split]].
      * simpl app. rewrite <- rev_app_distr, <- Hrs, rev_involutive.
        reflexivity.
      * reflexivity.
      * intros Hne. apply Hfit. intros ->. apply Hne. reflexivity.
      * intros d m Hd. apply (Hmax m (rev d)).
        rewrite <- (rev_involutive rest), Hd, rev_app_distr. reflexivity.
Qed.

(** X27. [truncate_for_context] returns whenever the first message has a
    role (the only key it requires).  It keeps the system prompt, when the
    first message is one, and after it the longest run of the most recent
    messages that fits: the messages kept are a suffix of the others; when
    any is kept, the estimate of the system prompt plus the per-message
    estimates of the kept ones is within [max_tokens]; and the most recent
    message dropped would have gone over it.  The estimate of the whole
    result can still exceed [max_tokens], by less than one token per
    message. *)
Theorem X27_truncate_for_context (messages : list Message.t) (max_tokens : Z) :
  (forall first others, messages = first :: others -> has_role first) ->
  exists dropped kept,
    messages = system_part messages ++ dropped ++ kept
    /\ truncate_for_context messages max_tokens =
       Returns (system_part messages ++ kept)
    /\ (kept <> [] ->
        (estimate_tokens (system_part messages) + sum_tokens kept
         <= max_tokens)%Z
        /\ (4 * estimate_tokens (system_part messages ++ kept)
            <= 4 * max_tokens
               + 3 * Z.of_nat (List.length (system_part messages ++ kept)))%Z)
    /\ (forall dropped' m, dropped = dropped' ++ [m] ->
        (max_tokens <
         estimate_tokens (system_part messages) + sum_tokens kept
         + message_tokens m)%Z).
Proof.
  intros Hrole.
  destruct (truncate_for_context_shape messages max_tokens Hrole)
    as [dropped [kept [Hsplit [Hout [Hfit Hmax]]]]].
  exists dropped, kept. split; [exact Hsplit |]. split; [exact Hout |].
  split; [| exact Hmax].
  intros Hne. specialize (Hfit Hne). split; [exact Hfit |].
  pose proof (estimate_tokens_le (system_part messages ++ kept)).
  pose proof (total_chars_bound (system_part messages ++ kept)).
  rewrite sum_tokens_app in *. rewrite estimate_system_part in Hfit. lia.
Qed.

Lemma X27_truncate_for_context_witness :
  exists dropped kept,
    [short_message; short_message; short_message; short_message] =
    system_part [short_message; short_message; short_message; short_message]
    ++ dropped ++ kept
    /\ truncate_for_context
         [short_message; short_message; short_message; short_message] 0 =
       Returns
         (system_part
            [short_message; short_message; short_message; short_message]
          ++ kept)
    /\ (kept <> [] ->
        (estimate_tokens
           (system_part
              [short_message; short_message; short_message; short_message])
         + sum_tokens kept <= 0)%Z
        /\ (4 * estimate_tokens
                  (system_part
                     [short_message; short_message; short_message;
                      short_message] ++ kept)
            <= 4 * 0
               + 3 * Z.of_nat
                       (List.length
                          (system_part
                             [short_message; short_message; short_message;
                              short_message] ++ kept)))%Z)
    /\ (forall dropped' m, dropped = dropped' ++ [m] ->
        (0 <
         estimate_tokens
           (system_part
              [short_message; short_message; short_message; short_message])
         + sum_tokens kept + message_tokens m)%Z).
Proof.
  apply (X27_truncate_for_context
           [short_message; short_message; short_message; short_message] 0).
  intros first others H. injection H as <- _. unfold has_role. discriminate.
Defined.

(** With a budget of 0, four messages of three characters are all kept
    (each is estimated at 0 tokens), and the result is estimated at 3. *)
Lemma truncate_estimate_can_exceed :
  truncate_for_context
    [short_message; short_message; short_message; short_message] 0 =
  Returns [short_message; short_message; short_message; short_message]
  /\ estimate_tokens
       [short_message; short_message; short_message; short_message] = 3%Z.
Proof. split; reflexivity. Qed.

(** X28. [truncate_for_context] is idempotent on messages that all have a
    role: truncating its result again, with the same budget, returns that
    result.  (Also when a message of role [system] that was not first comes
    first in the result and is then taken as the system prompt.) *)
Theorem X28_truncate_for_context_idempotent (messages : list Message.t)
  (max_tokens : Z) :
  Forall has_role messages ->
  exists result,
    truncate_for_context messages max_tokens = Returns result
    /\ truncate_for_context result max_tokens = Returns result.
Proof.
  intros Hall. destruct messages as [| first others].
  - exists []. split; reflexivity.
  - pose proof (Forall_inv Hall) as Hfirst. unfold has_role in Hfirst.
    unfold truncate_for_context at 1.
    destruct (Message.role first) as [r |] eqn:Er; [| contradiction].
    destruct (String.eqb r "system") eqn:Es.
    + destruct (truncate_loop_spec max_tokens (rev others) []
                  (estimate_tokens [first]))
        as [taken [rest [Hrs [Hout [Hfit _]]]]].
      rewrite Hout, app_nil_r.
      exists (first :: rev taken). split; [reflexivity |].
      unfold truncate_for_context. rewrite Er, Es, rev_involutive.
      destruct taken as [| m taken']; [reflexivity |].
      rewrite truncate_loop_fits by (apply Hfit; discriminate).
      rewrite app_nil_r. reflexivity.
    + destruct (truncate_loop_spec max_tokens (rev (first :: others)) []
                  (estimate_tokens []))
        as [taken [rest [Hrs [Hout [Hfit _]]]]].
      rewrite Hout, app_nil_r.
      exists (rev taken). split; [reflexivity |].
      destruct (rev taken) as [| h t] eqn:Erev; [reflexivity |].
      assert (taken <> []) as Hne by (intros ->; discriminate).
      specialize (Hfit Hne). change (estimate_tokens []) with 0%Z in Hfit.
      assert (In h (first :: others)) as Hin.
      { apply in_rev. rewrite Hrs. apply in_or_app. left.
        apply in_rev. rewrite Erev. left. reflexivity. }
      pose proof (proj1 (Forall_forall _ _) Hall h Hin) as Hh.
      unfold has_role in Hh.
      assert (sum_tokens (h :: t) = sum_tokens taken) as Hsum
        by (rewrite <- Erev; apply sum_tokens_rev).
      assert (rev (h :: t) = taken) as Htaken
        by (rewrite <- Erev; apply rev_involutive).
      unfold truncate_for_context.
      destruct (Message.role h) as [rh |]; [| contradiction].
      destruct (String.eqb rh "system").
      * rewrite estimate_tokens_one.
        rewrite truncate_loop_fits.
        -- rewrite rev_involutive, app_nil_r. reflexivity.
        -- rewrite sum_tokens_rev. simpl in Hsum. lia.
      * rewrite Htaken. change (estimate_tokens []) with 0%Z.
        rewrite truncate_loop_fits by exact Hfit.
        rewrite app_nil_r, <- Htaken, rev_involutive. reflexivity.
Qed.

Lemma X28_truncate_for_context_idempotent_witness :
  exists result,
    truncate_for_context
      [short_message; short_message; short_message; short_message] 0 =
    Returns result
    /\ truncate_for_context result 0 = Returns result.
Proof.
  apply (X28_truncate_for_context_idempotent
           [short_message; short_message; short_message; short_message] 0).
  repeat constructor; unfold has_role; discriminate.
Defined.

(** Without the roles idempotence fails: the second call can raise
    [KeyError] on a message the first call never looked at. *)
Lemma truncate_twice_can_raise :
  truncate_for_context [token_message; anonymous_message] 0 =
  Returns [anonymous_message]
  /\ truncate_for_context [anonymous_message] 0 = Raises KeyError.
Proof. split; reflexivity. Qed.

(** ** The chat prompt and the conversation cache *)

Lemma slice_last_length {A : Type} (n : nat) (l : list A) :
  (List.length (slice_last n l) <= n)%nat.
Proof. unfold slice_last. rewrite length_skipn. lia. Qed.

Lemma slice_last_snoc {A : Type} (n : nat) (l : list A) (m : A) :
  slice_last (S n) (l ++ [m]) = slice_last n l ++ [m].
Proof.
  unfold slice_last. rewrite length_app. simpl List.length.
  replace (List.length l + 1 - S n)%nat with (List.length l - n)%nat by lia.
  rewrite skipn_app.
  replace (List.length l - n - List.length l)%nat with 0%nat by lia.
  reflexivity.
Qed.

Lemma slice_last_slice_last {A : Type} (a b : nat) (l : list A) :
  (a <= b)%nat -> slice_last a (slice_last b l) = slice_last a l.
Proof.
  intros Hab. unfold slice_last. rewrite skipn_skipn, length_skipn.
  f_equal. lia.
Qed.

Lemma build_system_prompt_total (rules : list RuleDict.t) :
  lacks_category rules = false ->
  exists system_prompt, build_system_prompt rules = Returns system_prompt.
Proof.
  intros H. unfold build_system_prompt, build_rules_section.
  destruct rules as [| r rules]; [eexists; reflexivity |].
  cbv zeta. rewrite remaining_sections_spec, H. eexists. reflexivity.
Qed.

Lemma build_system_prompt_raises (rules : list RuleDict.t) :
  lacks_category rules = true ->
  build_system_prompt rules = Raises AttributeError.
Proof.
  intros H. unfold build_system_prompt, build_rules_section.
  destruct rules as [| r rules]; [discriminate |].
  cbv zeta. rewrite remaining_sections_spec, H. reflexivity.
Qed.

Lemma build_chat_prompt_shape (store : conversation_cache) (message : string)
  (rules : list RuleDict.t) (conversation_id : option string)
  (system_prompt : string) :
  build_system_prompt rules = Returns system_prompt ->
  build_chat_prompt store message rules conversation_id true =
  Returns (Message.make "system" system_prompt
           :: recent_history store conversation_id
           ++ [Message.make "user" message]).
Proof.
  intros H. unfold build_chat_prompt. rewrite H. simpl attempt_bind.
  unfold recent_history, stored_context.
  destruct conversation_id as [[| c id] |]; try reflexivity.
  destruct (get_context store (String c id)) as [[| m h] |]; reflexivity.
Qed.

(** X29. The messages [process_chat] sends to the model.  If a selected
    rule has no category, building the prompt raises [AttributeError].
    Otherwise the call returns, never with a [KeyError]: the first message
    is the system prompt with the rules, always kept, also when it alone is
    over the 4000 tokens; after it come the most recent of the at most 10
    cached messages and the user's message, at most 11 in all.  The user's
    own message is sent exactly when its estimate fits beside the system
    prompt's; when it does not, the model gets the system prompt alone. *)
Theorem X29_chat_messages (store : conversation_cache) (message : string)
  (rules : list RuleDict.t) (conversation_id : option string) :
  if lacks_category rules then
    chat_messages store message rules conversation_id = Raises AttributeError
  else
    exists system_prompt dropped kept,
      build_system_prompt rules = Returns system_prompt
      /\ recent_history store conversation_id
         ++ [Message.make "user" message] = dropped ++ kept
      /\ chat_messages store message rules conversation_id =
         Returns (Message.make "system" system_prompt :: kept)
      /\ (kept = [] <->
          (4000 < message_tokens (Message.make "system" system_prompt)
                  + message_tokens (Message.make "user" message))%Z)
      /\ (List.length kept <= 11)%nat.
Proof.
  destruct (lacks_category rules) eqn:Hlacks.
  - unfold chat_messages, build_chat_prompt.
    rewrite (build_system_prompt_raises rules Hlacks). reflexivity.
  - destruct (build_system_prompt_total rules Hlacks) as [sp Hsp].
    set (system := Message.make "system" sp).
    set (user := Message.make "user" message).
    set (history := recent_history store conversation_id).
    destruct (truncate_for_context_shape (system :: history ++ [user]) 4000)
      as [dropped [kept [Hsplit [Hout [Hfit Hmax]]]]].
    { intros first others H. injection H as <- _. unfold has_role.
      discriminate. }
    change (system_part (system :: history ++ [user])) with [system] in *.
    rewrite estimate_tokens_one in *.
    injection Hsplit as Hsplit.
    exists sp, dropped, kept. split; [exact Hsp |]. split; [exact Hsplit |].
    split; [| split].
    + unfold chat_messages.
      rewrite (build_chat_prompt_shape store message rules conversation_id
                 sp Hsp).
      exact Hout.
    + split.
      * intros ->. rewrite app_nil_r in Hsplit.
        specialize (Hmax history user (eq_sym Hsplit)).
        change (sum_tokens []) with 0%Z in Hmax. fold system user. lia.
      * intros Hover. destruct kept as [| k kept']; [reflexivity |].
        exfalso.
        destruct (exists_last (l := k :: kept')) as [kept0 [x Hlast]];
          [discriminate |].
        rewrite Hlast in Hsplit, Hfit.
        rewrite app_assoc in Hsplit. apply app_inj_tail in Hsplit.
        destruct Hsplit as [_ Hx]. subst x.
        assert (kept0 ++ [user] <> []) as Hne
          by (intros H; destruct kept0; discriminate).
        specialize (Hfit Hne). rewrite sum_tokens_app in Hfit.
        pose proof (sum_tokens_nonneg kept0).
        change (sum_tokens [user]) with (message_tokens user + 0)%Z in Hfit.
        fold system user in Hover. lia.
    + assert (List.length (history ++ [user]) <= 11)%nat as Hlen.
      { rewrite length_app. simpl.
        assert (List.length history <= 10)%nat; [| lia].
        unfold history, recent_history.
        destruct conversation_id as [[| c id] |]; simpl; try lia.
        apply slice_last_length. }
      rewrite Hsplit, length_app in Hlen. lia.
Qed.

Lemma append_message_context (store : conversation_cache)
  (conversation_id : string) (message : Message.t) :
  get_context (append_message store conversation_id message) conversation_id =
  Some (slice_last 19 (stored_context store conversation_id) ++ [message]).
Proof.
  unfold stored_context, append_message, set_context, get_context.
  rewrite String.eqb_refl. f_equal. cbv zeta.
  change 20%nat with (S 19). rewrite slice_last_snoc.
  destruct (store conversation_id) as [[| m c] |]; reflexivity.
Qed.

Lemma append_message_other (store : conversation_cache)
  (conversation_id other : string) (message : Message.t) :
  other <> conversation_id ->
  get_context (append_message store conversation_id message) other =
  get_context store other.
Proof.
  intros H. unfold append_message, set_context, get_context.
  apply String.eqb_neq in H. rewrite H. reflexivity.
Qed.

(** X30. After [update_conversation_context] the cached context of the
    conversation ends with the user's message and the assistant's response,
    in this order, preceded by the most recent messages of the previous
    context: all of them when there were at most 18, else the last 18.  So
    a context never holds more than 20 messages.  No other conversation is
    touched.  (The expiry of cache keys is not modelled.) *)
Theorem X30_update_conversation_context (store : conversation_cache)
  (conversation_id user_message assistant_response : string) :
  let store' :=
    update_conversation_context store conversation_id user_message
      assistant_response in
  exists dropped older,
    stored_context store conversation_id = dropped ++ older
    /\ get_context store' conversation_id =
       Some (older ++ [Message.make "user" user_message;
                       Message.make "assistant" assistant_response])
    /\ List.length older =
       Nat.min 18 (List.length (stored_context store conversation_id))
    /\ (List.length (stored_context store' conversation_id) <= 20)%nat
    /\ forall other, other <> conversation_id ->
       get_context store' other = get_context store other.
Proof.
  cbv zeta. unfold update_conversation_context.
  set (user := Message.make "user" user_message).
  set (assistant := Message.make "assistant" assistant_response).
  set (previous := stored_context store conversation_id).
  assert (get_context
            (append_message (append_message store conversation_id user)
               conversation_id assistant) conversation_id =
          Some (slice_last 18 previous ++ [user; assistant])) as Hctx.
  { rewrite append_message_context. unfold stored_context at 1.
    rewrite append_message_context. simpl Py.dict_get. fold previous.
    change 19%nat with (S 18) at 1. rewrite slice_last_snoc.
    rewrite slice_last_slice_last by lia.
    rewrite <- app_assoc. reflexivity. }
  exists (firstn (List.length previous - 18) previous), (slice_last 18 previous).
  split; [| split; [| split; [| split]]].
  - unfold slice_last. symmetry. apply firstn_skipn.
  - exact Hctx.
  - unfold slice_last. rewrite length_skipn. lia.
  - unfold stored_context at 1. rewrite Hctx. simpl Py.dict_get.
    rewrite length_app. pose proof (slice_last_length 18 previous).
    simpl. lia.
  - intros other Hother. rewrite !append_message_other by exact Hother.
    reflexivity.
Qed.
